(** * Magic Buddy: conversation controller, speech adapter and scripted model client

    A shallow embedding of [src/lib/openai.ts] (the scripted client),
    [src/hooks/useSpeech.ts] (the speech adapter) and [src/App.tsx] (the
    conversation controller), followed by the properties of the
    specification that concern them.

    Conventions of the embedding.
    - A JavaScript string is a [string]: the sequence of the bytes of its
      UTF-8 encoding.  The only string operations the modelled code uses are
      [split(' ')], [includes] with ASCII needles, [startsWith] with an ASCII
      prefix, [trim] and [toLowerCase].  A byte below 128 occurs in a UTF-8
      text only as the ASCII character itself, so splitting at spaces and
      searching ASCII needles agree on both representations.  The Unicode
      [toLowerCase] sends to ASCII letters only [A]-[Z], the Kelvin sign (to
      [k]) and the dotted capital I (to [i] followed by a combining dot); no
      keyword of the scripted client contains [k] or ends in [i], so the
      byte-wise lowering of [A]-[Z] below finds the same keywords.
    - A promise is modelled by its [Outcome]: the value it resolves with or
      the error it rejects with.  Simulated delays only postpone the outcome.
    - React state setters are applied at once to the state record. *)

From Stdlib Require Import String Ascii List Bool ZArith Lia.
Import ListNotations.
Open Scope string_scope.
Open Scope bool_scope.

(** ** JavaScript values and string helpers *)

Module Js.

(** An [Error] object, reduced to its [message]. *)
Record Error := mkError { message : string }.

(** Settlement of a promise, or result of a call that may throw. *)
Inductive Outcome (A : Type) : Type :=
| Resolved (a : A)
| Rejected (e : Error).
Arguments Resolved {A} a.
Arguments Rejected {A} e.

(** The [TypeError] raised when a property of [undefined] is read. *)
Definition TypeError_undefined (prop : string) : Error :=
  mkError ("Cannot read properties of undefined (reading '" ++ prop ++ "')").

(** [s.includes(needle)] *)
Fixpoint includes (needle s : string) : bool :=
  prefix needle s ||
  match s with
  | EmptyString => false
  | String _ s' => includes needle s'
  end.

(** [s.startsWith(p)] *)
Definition startsWith (p s : string) : bool := prefix p s.

Definition lower_ascii (c : ascii) : ascii :=
  let n := nat_of_ascii c in
  if (65 <=? n)%nat && (n <=? 90)%nat then ascii_of_nat (n + 32) else c.

(** [s.toLowerCase()] *)
Fixpoint toLowerCase (s : string) : string :=
  match s with
  | EmptyString => EmptyString
  | String c s' => String (lower_ascii c) (toLowerCase s')
  end.

(** [s.split(' ')]: the pieces between the occurrences of the separator
    character; [split_go] carries the piece being read. *)
Fixpoint split_go (sep : ascii) (cur : string) (s : string) : list string :=
  match s with
  | EmptyString => [cur]
  | String c s' =>
      if Ascii.eqb c sep then cur :: split_go sep EmptyString s'
      else split_go sep (cur ++ String c EmptyString) s'
  end.

Definition split (sep : ascii) (s : string) : list string :=
  split_go sep EmptyString s.

(** Number of occurrences of a character. *)
Fixpoint count_char (sep : ascii) (s : string) : nat :=
  match s with
  | EmptyString => 0
  | String c s' => (if Ascii.eqb c sep then 1 else 0) + count_char sep s'
  end.

(** [x || dflt] on strings: the empty string is falsy. *)
Definition or_else (x dflt : string) : string :=
  if String.eqb x "" then dflt else x.

(** [arr[arr.length - 1]]: [undefined] (here [None]) on the empty array. *)
Definition last_elem {A : Type} (l : list A) : option A :=
  nth_error l (List.length l - 1).

(** *** [trim] *)

(** The white space and line terminators that [trim] removes, by the bytes
    of their UTF-8 encoding: U+0009 to U+000D and U+0020 on one byte; U+00A0
    on two; U+1680, U+2000 to U+200A, U+2028, U+2029, U+202F, U+205F, U+3000
    and U+FEFF on three. *)
Definition isSpace1 (a : ascii) : bool :=
  let x := nat_of_ascii a in
  (x =? 32)%nat || ((9 <=? x)%nat && (x <=? 13)%nat).

Definition isSpace2 (a b : ascii) : bool :=
  (nat_of_ascii a =? 194)%nat && (nat_of_ascii b =? 160)%nat.

Definition isSpace3 (a b c : ascii) : bool :=
  let x := nat_of_ascii a in
  let y := nat_of_ascii b in
  let z := nat_of_ascii c in
  ((x =? 225)%nat && (y =? 154)%nat && (z =? 128)%nat)
  || ((x =? 226)%nat && (y =? 128)%nat
      && (((128 <=? z)%nat && (z <=? 138)%nat)
          || (z =? 168)%nat || (z =? 169)%nat || (z =? 175)%nat))
  || ((x =? 226)%nat && (y =? 129)%nat && (z =? 159)%nat)
  || ((x =? 227)%nat && (y =? 128)%nat && (z =? 128)%nat)
  || ((x =? 239)%nat && (y =? 187)%nat && (z =? 191)%nat).

(** Drop the white space at the head of a text; with [backwards] the text
    is read from its end, so the bytes of a character come last byte
    first. *)
Fixpoint dropSpaces (backwards : bool) (s : string) : string :=
  match s with
  | EmptyString => s
  | String a r1 =>
      if isSpace1 a then dropSpaces backwards r1
      else
        match r1 with
        | EmptyString => s
        | String b r2 =>
            if (if backwards then isSpace2 b a else isSpace2 a b)
            then dropSpaces backwards r2
            else
              match r2 with
              | EmptyString => s
              | String c r3 =>
                  if (if backwards then isSpace3 c b a else isSpace3 a b c)
                  then dropSpaces backwards r3
                  else s
              end
        end
  end.

Fixpoint reverse_onto (s acc : string) : string :=
  match s with
  | EmptyString => acc
  | String a r => reverse_onto r (String a acc)
  end.

Definition reverse (s : string) : string := reverse_onto s EmptyString.

Definition trimStart (s : string) : string := dropSpaces false s.

Definition trimEnd (s : string) : string := reverse (dropSpaces true (reverse s)).

(** [s.trim()] *)
Definition trim (s : string) : string := trimEnd (trimStart s).

(** [if (s)]: a string is truthy unless it is empty. *)
Definition truthy (s : string) : bool := negb (String.eqb s "").

End Js.

(** ** The scripted model client ([src/lib/openai.ts]) *)

Module OpenAI.
Import Js.

Inductive Role := system | user | assistant.

(** One part of a composite message content. *)
Inductive ContentPart :=
| TextPart (text : string)
| ImageUrlPart (url : string).

(** [content: string | Array<any>] *)
Inductive Content :=
| Text (s : string)
| Parts (ps : list ContentPart).

Record ChatMessage := mkMsg { role : Role; content : Content }.

Record ToolCall := mkTool { color : string }.

Record Reply := mkReply { text : string; toolCall : option ToolCall }.

Record StartReply := mkStart {
  start_text : string;
  start_toolCall : option ToolCall;
  initialUserMessage : ChatMessage
}.

(** [mockAnalyzeImageAndStart]: after the simulated delay the promise
    resolves with the fixed greeting. *)
Definition mockAnalyzeImageAndStart : Outcome StartReply :=
  Resolved
    {| start_text := "Wow! That looks like a super happy dinosaur! Is he going on an adventure?";
       start_toolCall := Some (mkTool "#e3fded");
       initialUserMessage := mkMsg user (Text "Image Analysis Request") |}.

(** [typeof lastUserMsg.content === 'string' ? lastUserMsg.content.toLowerCase() : ''] *)
Definition userTextOf (m : ChatMessage) : string :=
  match content m with
  | Text s => toLowerCase s
  | Parts _ => ""
  end.

(** The [if]/[else if] chain of [mockContinueConversation]. *)
Definition scriptedReply (userText : string) : Reply :=
  if includes "red" userText || includes "fire" userText || includes "hot" userText then
    mkReply "Oh wow! Red like a volcano! Is it hot?" (Some (mkTool "#ffe5e5"))
  else if includes "blue" userText || includes "water" userText || includes "swim" userText then
    mkReply "Splash! Blue like the ocean. Can he swim?" (Some (mkTool "#e0f7fa"))
  else if includes "green" userText || includes "grass" userText || includes "leaf" userText then
    mkReply "Yum! Green like fresh leaves. Is he hungry?" (Some (mkTool "#e3fded"))
  else if includes "fly" userText || includes "wings" userText then
    mkReply "Zoom! Flying high in the sky! Where is he going?" (Some (mkTool "#e1f5fe"))
  else if includes "eat" userText || includes "food" userText || includes "hungry" userText then
    mkReply "Crunch crunch! He loves eating big leaves and fruits. What is your favorite food?"
            (Some (mkTool "#fff3e0"))
  else if includes "roar" userText || includes "loud" userText then
    mkReply "ROAAAR! He has a big loud voice! Can you roar like a dinosaur?"
            (Some (mkTool "#ffecb3"))
  else if includes "friend" userText || includes "play" userText then
    mkReply "Friends are the best! Does he play tag or hide-and-seek?" (Some (mkTool "#f3e5f5"))
  else if includes "sleep" userText || includes "tired" userText || includes "bed" userText then
    mkReply "Shhh... tight sleep. Maybe he dreams of flying?" (Some (mkTool "#cfd8dc"))
  else if includes "yes" userText || includes "yeah" userText then
    mkReply "Yay! I knew it! Tell me more!" None
  else if includes "no" userText || includes "nope" userText then
    mkReply "Oh really? What mistakes did I make? Tell me the secret!" None
  else
    mkReply "That sounds like so much fun! What else can he do?" None.

(** [mockContinueConversation]: reading [content] of [history[length - 1]]
    throws when the history is empty, which rejects the promise. *)
Definition mockContinueConversation (history : list ChatMessage) : Outcome Reply :=
  match last_elem history with
  | None => Rejected (TypeError_undefined "content")
  | Some lastUserMsg => Resolved (scriptedReply (userTextOf lastUserMsg))
  end.

(** *** The keyword table, as the specification words it *)

(** A row: the keyword set, the reply and the optional color command. *)
Definition Row : Type := (list string * Reply)%type.

Definition keywordTable : list Row :=
  [ (["red"; "fire"; "hot"],
      mkReply "Oh wow! Red like a volcano! Is it hot?" (Some (mkTool "#ffe5e5")));
    (["blue"; "water"; "swim"],
      mkReply "Splash! Blue like the ocean. Can he swim?" (Some (mkTool "#e0f7fa")));
    (["green"; "grass"; "leaf"],
      mkReply "Yum! Green like fresh leaves. Is he hungry?" (Some (mkTool "#e3fded")));
    (["fly"; "wings"],
      mkReply "Zoom! Flying high in the sky! Where is he going?" (Some (mkTool "#e1f5fe")));
    (["eat"; "food"; "hungry"],
      mkReply "Crunch crunch! He loves eating big leaves and fruits. What is your favorite food?"
              (Some (mkTool "#fff3e0")));
    (["roar"; "loud"],
      mkReply "ROAAAR! He has a big loud voice! Can you roar like a dinosaur?"
              (Some (mkTool "#ffecb3")));
    (["friend"; "play"],
      mkReply "Friends are the best! Does he play tag or hide-and-seek?"
              (Some (mkTool "#f3e5f5")));
    (["sleep"; "tired"; "bed"],
      mkReply "Shhh... tight sleep. Maybe he dreams of flying?" (Some (mkTool "#cfd8dc")));
    (["yes"; "yeah"], mkReply "Yay! I knew it! Tell me more!" None);
    (["no"; "nope"],
      mkReply "Oh really? What mistakes did I make? Tell me the secret!" None) ].

Definition defaultReply : Reply :=
  mkReply "That sounds like so much fun! What else can he do?" None.

(** A row applies when the text contains one of its keywords. *)
Definition rowMatches (userText : string) (r : Row) : bool :=
  existsb (fun k => includes k userText) (fst r).

(** First match wins; the default when no row applies. *)
Definition firstMatch (table : list Row) (userText : string) : Reply :=
  match find (rowMatches userText) table with
  | Some r => snd r
  | None => defaultReply
  end.

End OpenAI.

(** ** The speech adapter ([src/hooks/useSpeech.ts]) *)

Module Speech.
Import Js.

(** A completion callback, named by a token. *)
Definition Callback := nat.

(** What a handler does to the React state, the refs and the platform
    engines, in program order. *)
Inductive Effect :=
| SetIsListening (b : bool)
| SetIsSpeaking (b : bool)
| SetTranscript (s : string)
| SetShouldListen (b : bool)
| RecognitionStart
| RecognitionStop
| SynthCancel
| SynthSpeak (text : string)
| SetTimeout (ms : Z)
| ClearTimeout
| Invoke (cb : Callback).

(** The state of the hook: the [useState] cells, [shouldListenRef.current],
    whether [recognitionRef.current] holds a recognizer, and the effects
    performed so far. *)
Record Hook := mkHook {
  isListening : bool;
  isSpeaking : bool;
  transcript : string;
  isSupported : bool;
  shouldListen : bool;
  hasRecognition : bool;
  trace : list Effect
}.

(** Handlers are state transformers over the hook. *)
Definition M (A : Type) : Type := Hook -> A * Hook.

Definition ret {A : Type} (a : A) : M A := fun h => (a, h).

Definition bind {A B : Type} (m : M A) (k : A -> M B) : M B :=
  fun h => let (a, h') := m h in k a h'.

Definition exec {A : Type} (m : M A) (h : Hook) : Hook := snd (m h).

Declare Scope hook_scope.
Delimit Scope hook_scope with hook.
Notation "x <- m ;; k" := (bind m (fun x => k))
  (at level 61, m at next level, right associativity) : hook_scope.
Notation "m ;; k" := (bind m (fun _ => k))
  (at level 61, right associativity) : hook_scope.
Open Scope hook_scope.

Definition emit (e : Effect) : M unit :=
  fun h => (tt, mkHook (isListening h) (isSpeaking h) (transcript h) (isSupported h)
                       (shouldListen h) (hasRecognition h) (trace h ++ [e])).

Definition setIsListening (b : bool) : M unit :=
  fun h => emit (SetIsListening b)
             (mkHook b (isSpeaking h) (transcript h) (isSupported h)
                     (shouldListen h) (hasRecognition h) (trace h)).

Definition setIsSpeaking (b : bool) : M unit :=
  fun h => emit (SetIsSpeaking b)
             (mkHook (isListening h) b (transcript h) (isSupported h)
                     (shouldListen h) (hasRecognition h) (trace h)).

Definition setTranscript (s : string) : M unit :=
  fun h => emit (SetTranscript s)
             (mkHook (isListening h) (isSpeaking h) s (isSupported h)
                     (shouldListen h) (hasRecognition h) (trace h)).

Definition setShouldListen (b : bool) : M unit :=
  fun h => emit (SetShouldListen b)
             (mkHook (isListening h) (isSpeaking h) (transcript h) (isSupported h)
                     b (hasRecognition h) (trace h)).

Definition getShouldListen : M bool := fun h => (shouldListen h, h).
Definition getHasRecognition : M bool := fun h => (hasRecognition h, h).

(** The hook after its mount effect, on a host with ([true]) or without
    ([false]) a speech recognition constructor. *)
Definition useSpeech (hostHasRecognition : bool) : Hook :=
  mkHook false false "" hostHasRecognition false hostHasRecognition [].

(** *** Recognition *)

(** The events of the recognizer.  [OnResult] carries [event.results]: a
    list of results, each a list of alternative transcripts. *)
Inductive RecEvent :=
| OnStart
| OnResult (results : list (list string))
| OnEnd
| OnError (error : string).

Definition recognition_onstart : M unit := setIsListening true.

(** [event.results[last][0].transcript]; reading through [undefined] throws
    and leaves the transcript as it was. *)
Definition recognition_onresult (results : list (list string)) : M unit :=
  match last_elem results with
  | Some alternatives =>
      match nth_error alternatives 0 with
      | Some text => setTranscript text
      | None => ret tt
      end
  | None => ret tt
  end.

(** [recognition.start()] sits in a [try] whose [catch] only logs. *)
Definition recognition_onend : M unit :=
  setIsListening false ;;
  should <- getShouldListen ;;
  if should then emit RecognitionStart else ret tt.

Definition recognition_onerror (error : string) : M unit :=
  (if String.eqb error "not-allowed" || String.eqb error "service-not-allowed"
   then setShouldListen false else ret tt) ;;
  setIsListening false.

(** The handlers are installed only when a recognizer was constructed. *)
Definition dispatch (ev : RecEvent) : M unit :=
  has <- getHasRecognition ;;
  if has then
    match ev with
    | OnStart => recognition_onstart
    | OnResult results => recognition_onresult results
    | OnEnd => recognition_onend
    | OnError error => recognition_onerror error
    end
  else ret tt.

Fixpoint dispatchAll (evs : list RecEvent) : M unit :=
  match evs with
  | [] => ret tt
  | ev :: rest => dispatch ev ;; dispatchAll rest
  end.

Definition startListening : M unit :=
  setTranscript "" ;;
  setShouldListen true ;;
  has <- getHasRecognition ;;
  if has then emit RecognitionStart else ret tt.

Definition stopListening : M unit :=
  setShouldListen false ;;
  has <- getHasRecognition ;;
  if has then emit RecognitionStop else ret tt.

(** Number of [recognition.start()] calls in a trace. *)
Definition starts (tr : list Effect) : nat :=
  List.length (filter (fun e => match e with RecognitionStart => true | _ => false end) tr).

(** *** Synthesis *)

(** [Math.max(2000, text.split(' ').length * 500)] *)
Definition contentDuration (text : string) : Z :=
  Z.max 2000 (Z.of_nat (List.length (split " "%char text)) * 500).

(** The delay handed to [setTimeout]. *)
Definition safetyDelay (text : string) : Z := contentDuration text + 2000.

(** The safety timer of one [speak] call. *)
Inductive Timer := Armed (ms : Z) | Cleared | Fired.

(** What the closures of one [speak] call share: the timer and [onEnd]. *)
Record SpeakCall := mkCall { safetyTimer : Timer; onEnd : option Callback }.

(** The timer can no longer run its callback. *)
Definition disarmed (c : SpeakCall) : Prop :=
  safetyTimer c = Cleared \/ safetyTimer c = Fired.

(** [if (onEnd) onEnd()] *)
Definition callOnEnd (c : SpeakCall) : M unit :=
  match onEnd c with
  | Some cb => emit (Invoke cb)
  | None => ret tt
  end.

(** [clearTimeout(safetyTimer)]: without effect on a timer that has fired. *)
Definition clearTimeout (c : SpeakCall) : M SpeakCall :=
  emit ClearTimeout ;;
  ret (match safetyTimer c with
       | Armed _ => mkCall Cleared (onEnd c)
       | _ => c
       end).

(** [speak]: [None] when the guard on the empty text returns early, the
    closure of the call otherwise.  The choice of a voice, the pitch and the
    rate do not touch the state. *)
Definition speak (text : string) (onEnd : option Callback) : M (option SpeakCall) :=
  if String.eqb text "" then ret None
  else
    emit SynthCancel ;;
    emit (SetTimeout (safetyDelay text)) ;;
    emit (SynthSpeak text) ;;
    ret (Some (mkCall (Armed (safetyDelay text)) onEnd)).

(** The events of one utterance and of its timer; [TimerDue] carries the
    value of [window.speechSynthesis.speaking] when the delay elapses. *)
Inductive SynthEvent :=
| UttStart
| UttEnd
| UttError
| TimerDue (speaking : bool).

Definition utterance_onstart (c : SpeakCall) : M SpeakCall :=
  setIsSpeaking true ;; ret c.

Definition utterance_onend (c : SpeakCall) : M SpeakCall :=
  c' <- clearTimeout c ;;
  setIsSpeaking false ;;
  callOnEnd c' ;;
  ret c'.

Definition utterance_onerror (c : SpeakCall) : M SpeakCall :=
  c' <- clearTimeout c ;;
  setIsSpeaking false ;;
  callOnEnd c' ;;
  ret c'.

(** The timer callback runs only if the timer is still armed. *)
Definition safetyTimer_fire (speaking : bool) (c : SpeakCall) : M SpeakCall :=
  match safetyTimer c with
  | Armed _ =>
      let c' := mkCall Fired (onEnd c) in
      if speaking then
        emit SynthCancel ;;
        setIsSpeaking false ;;
        callOnEnd c' ;;
        ret c'
      else ret c'
  | _ => ret c
  end.

Definition deliver (ev : SynthEvent) (c : SpeakCall) : M SpeakCall :=
  match ev with
  | UttStart => utterance_onstart c
  | UttEnd => utterance_onend c
  | UttError => utterance_onerror c
  | TimerDue speaking => safetyTimer_fire speaking c
  end.

Fixpoint deliverAll (evs : list SynthEvent) (c : SpeakCall) : M SpeakCall :=
  match evs with
  | [] => ret c
  | ev :: rest => c' <- deliver ev c ;; deliverAll rest c'
  end.

(** One [speak] call followed by the events of its utterance and timer.  A
    call that returned early created neither, so nothing is delivered. *)
Definition speakThen (text : string) (onEnd : option Callback)
    (evs : list SynthEvent) : M unit :=
  r <- speak text onEnd ;;
  match r with
  | Some c => deliverAll evs c ;; ret tt
  | None => ret tt
  end.

(** Number of invocations of a callback in a trace. *)
Definition invocations (cb : Callback) (tr : list Effect) : nat :=
  List.length
    (filter (fun e => match e with Invoke cb' => Nat.eqb cb cb' | _ => false end) tr).

(** The engine reports no further end or error. *)
Fixpoint quiet (evs : list SynthEvent) : bool :=
  match evs with
  | [] => true
  | UttStart :: rest | TimerDue _ :: rest => quiet rest
  | UttEnd :: _ | UttError :: _ => false
  end.

(** The engine settles the utterance once: after optional start events it
    reports one end or one error, or reports neither and is speaking when
    the delay elapses; nothing but start events and stale timer ticks
    follow. *)
Fixpoint settlesOnce (evs : list SynthEvent) : bool :=
  match evs with
  | [] => false
  | UttStart :: rest => settlesOnce rest
  | UttEnd :: rest | UttError :: rest => quiet rest
  | TimerDue true :: rest => quiet rest
  | TimerDue false :: _ => false
  end.

(** *** Counting events and commands *)

(** End and error events of an utterance. *)
Fixpoint completions (evs : list SynthEvent) : nat :=
  match evs with
  | [] => 0
  | UttEnd :: rest | UttError :: rest => S (completions rest)
  | UttStart :: rest | TimerDue _ :: rest => completions rest
  end.

(** The delay elapses before any end or error event, and the engine is
    flagged as speaking at that moment. *)
Fixpoint timerForces (evs : list SynthEvent) : bool :=
  match evs with
  | UttStart :: rest => timerForces rest
  | TimerDue speaking :: _ => speaking
  | _ => false
  end.

(** The errors on which [recognition.onerror] clears the intent flag. *)
Definition isPermissionError (error : string) : bool :=
  String.eqb error "not-allowed" || String.eqb error "service-not-allowed".

Definition permissionDenied (evs : list RecEvent) : bool :=
  existsb (fun ev => match ev with OnError error => isPermissionError error | _ => false end)
          evs.

(** End events of the recognizer. *)
Fixpoint ends (evs : list RecEvent) : nat :=
  match evs with
  | [] => 0
  | OnEnd :: rest => S (ends rest)
  | _ :: rest => ends rest
  end.

(** The text a result event carries, when [event.results] is not empty and
    its last result has an alternative. *)
Definition resultText (results : list (list string)) : option string :=
  match last_elem results with
  | Some alternatives => nth_error alternatives 0
  | None => None
  end.

(** The text of the latest result event that carries one, [current] when
    there is none. *)
Fixpoint latestText (evs : list RecEvent) (current : string) : string :=
  match evs with
  | [] => current
  | OnResult results :: rest =>
      latestText rest (match resultText results with Some t => t | None => current end)
  | _ :: rest => latestText rest current
  end.

(** What a component does with the recognition half of the hook: it calls
    [startListening] or [stopListening], or the recognizer sends an event. *)
Inductive Use :=
| CallStartListening
| CallStopListening
| Event (ev : RecEvent).

Definition perform (u : Use) : M unit :=
  match u with
  | CallStartListening => startListening
  | CallStopListening => stopListening
  | Event ev => dispatch ev
  end.

Fixpoint performAll (us : list Use) : M unit :=
  match us with
  | [] => ret tt
  | u :: rest => perform u ;; performAll rest
  end.

(** The calls made on the recognizer, in order. *)
Definition recognizerCommands (tr : list Effect) : list Effect :=
  filter (fun e => match e with RecognitionStart | RecognitionStop => true | _ => false end) tr.

(** The callbacks invoked, in order. *)
Definition invoked (tr : list Effect) : list Effect :=
  filter (fun e => match e with Invoke _ => true | _ => false end) tr.

End Speech.

(** ** The conversation controller ([src/App.tsx]) *)

Module App.
Import Js OpenAI.

Inductive AppState := IDLE | ANALYZING | SPEAKING | LISTENING | THINKING | ERROR.

(** The completion callback that [startConversation] and
    [handleUserResponse] hand to [speak]: it runs [handleAIBlueSpeechEnd]. *)
Definition onSpeechEnd : Speech.Callback := 0.

(** The [useState] cells of the component, the speech hook it owns and the
    [speak] call in flight. *)
Record State := mkState {
  hasKey : bool;
  imageSrc : string;
  appState : AppState;
  history : list ChatMessage;
  lastAIResponse : string;
  backgroundColor : string;
  isDemoMode : bool;
  speech : Speech.Hook;
  utterance : option Speech.SpeakCall
}.

Definition setHasKey (b : bool) (s : State) : State :=
  mkState b (imageSrc s) (appState s) (history s) (lastAIResponse s)
          (backgroundColor s) (isDemoMode s) (speech s) (utterance s).

Definition setImageSrc (src : string) (s : State) : State :=
  mkState (hasKey s) src (appState s) (history s) (lastAIResponse s)
          (backgroundColor s) (isDemoMode s) (speech s) (utterance s).

Definition setAppState (a : AppState) (s : State) : State :=
  mkState (hasKey s) (imageSrc s) a (history s) (lastAIResponse s)
          (backgroundColor s) (isDemoMode s) (speech s) (utterance s).

Definition setHistory (h : list ChatMessage) (s : State) : State :=
  mkState (hasKey s) (imageSrc s) (appState s) h (lastAIResponse s)
          (backgroundColor s) (isDemoMode s) (speech s) (utterance s).

Definition setLastAIResponse (t : string) (s : State) : State :=
  mkState (hasKey s) (imageSrc s) (appState s) (history s) t
          (backgroundColor s) (isDemoMode s) (speech s) (utterance s).

Definition setBackgroundColor (c : string) (s : State) : State :=
  mkState (hasKey s) (imageSrc s) (appState s) (history s) (lastAIResponse s)
          c (isDemoMode s) (speech s) (utterance s).

Definition setIsDemoMode (b : bool) (s : State) : State :=
  mkState (hasKey s) (imageSrc s) (appState s) (history s) (lastAIResponse s)
          (backgroundColor s) b (speech s) (utterance s).

(** Run a handler of the speech hook on the hook the component owns. *)
Definition onSpeech (m : Speech.M unit) (s : State) : State :=
  mkState (hasKey s) (imageSrc s) (appState s) (history s) (lastAIResponse s)
          (backgroundColor s) (isDemoMode s) (Speech.exec m (speech s)) (utterance s).

(** [speak(text, () => { handleAIBlueSpeechEnd(); })] *)
Definition speak (t : string) (s : State) : State :=
  let r := Speech.speak t (Some onSpeechEnd) (speech s) in
  mkState (hasKey s) (imageSrc s) (appState s) (history s) (lastAIResponse s)
          (backgroundColor s) (isDemoMode s) (snd r) (fst r).

(** The state at first render. *)
Definition initial (hostHasRecognition : bool) : State :=
  mkState false "/dino.svg" IDLE [] "" "#f0f9ff" false
          (Speech.useSpeech hostHasRecognition) None.

(** [if (toolCall) setBackgroundColor(toolCall.color)] *)
Definition applyToolCall (tc : option ToolCall) (s : State) : State :=
  match tc with
  | Some c => setBackgroundColor (color c) s
  | None => s
  end.

(** The [catch] block shared by both requests. *)
Definition catchError (e : Error) (s : State) : State :=
  setAppState ERROR (setLastAIResponse (or_else (message e) "Unknown error occurred") s).

Definition handleResetKey (s : State) : State :=
  setAppState IDLE (setHasKey false s).

(** [handleImageUpload], once the file has been converted. *)
Definition handleImageUpload (base64 : string) (s : State) : State :=
  setLastAIResponse "" (setHistory [] (setAppState IDLE (setImageSrc base64 s))).

Definition handleAIBlueSpeechEnd (s : State) : State :=
  onSpeech Speech.startListening (setAppState LISTENING s).

Definition handleMicClick (s : State) : State :=
  match appState s with
  | IDLE | SPEAKING => s
  | _ =>
      if Speech.isListening (speech s) then onSpeech Speech.stopListening s
      else onSpeech Speech.startListening (setAppState LISTENING s)
  end.

Section Controller.

(** The requests that leave the browser: what each promise settles with is
    the environment's choice. *)
Variable fetchImageAsBase64 : string -> Outcome string.
Variable analyzeImageAndStart : string -> Outcome StartReply.
Variable continueConversation : list ChatMessage -> Outcome Reply.

(** The two awaits of the [try] block of [startConversation]: the image is
    fetched and converted unless it is a data URL or the demo is used, then
    the scripted or the live client is asked. *)
Definition requestAnalysis (useDemo : bool) (imageSrc : string) : Outcome StartReply :=
  let base64 :=
    if negb (startsWith "data:" imageSrc) && negb useDemo
    then fetchImageAsBase64 imageSrc
    else Resolved imageSrc in
  match base64 with
  | Rejected e => Rejected e
  | Resolved b64 =>
      if useDemo then mockAnalyzeImageAndStart else analyzeImageAndStart b64
  end.

(** [startConversation(forceDemo)], run to the settlement of its awaits.
    [hasKey], [isDemoMode] and [imageSrc] are those of the render in which
    the handler was created. *)
Definition startConversation (forceDemo : bool) (s : State) : State :=
  if negb (hasKey s) && negb forceDemo then s
  else
    let useDemo := forceDemo || isDemoMode s in
    let s1 := if forceDemo then setIsDemoMode true s else s in
    let s2 := setAppState ANALYZING s1 in
    match requestAnalysis useDemo (imageSrc s) with
    | Rejected e => catchError e s2
    | Resolved r =>
        let s3 := setLastAIResponse (start_text r) s2 in
        let s4 := setHistory [initialUserMessage r;
                              mkMsg assistant (Text (start_text r))] s3 in
        let s5 := applyToolCall (start_toolCall r) s4 in
        let s6 := setAppState SPEAKING s5 in
        speak (start_text r) s6
    end.

(** [handleUserResponse(userText)], run to the settlement of its await.
    [newHistory] is built from the [history] of the handler's render. *)
Definition handleUserResponse (userText : string) (s : State) : State :=
  let s1 := setAppState THINKING s in
  let newHistory := (history s ++ [mkMsg user (Text userText)])%list in
  let s2 := setHistory newHistory s1 in
  let result :=
    if isDemoMode s then mockContinueConversation newHistory
    else continueConversation newHistory in
  match result with
  | Rejected e => catchError e s2
  | Resolved r =>
      let s3 := setLastAIResponse (text r) s2 in
      let s4 := setHistory (newHistory ++ [mkMsg assistant (Text (text r))])%list s3 in
      let s5 := applyToolCall (toolCall r) s4 in
      let s6 := setAppState SPEAKING s5 in
      speak (text r) s6
  end.

End Controller.

Definition isLISTENING (a : AppState) : bool :=
  match a with LISTENING => true | _ => false end.

Section Effects.

Variable continueConversation : list ChatMessage -> Outcome Reply.

(** The effect on [isListening], [appState] and [transcript]: when the
    recognizer has stopped in the LISTENING state, a transcript that is not
    blank is handed to [handleUserResponse], as it is. *)
Definition userSpeechEndEffect (s : State) : State :=
  if negb (Speech.isListening (speech s)) && isLISTENING (appState s) then
    if (0 <? String.length (trim (Speech.transcript (speech s))))%nat
    then handleUserResponse continueConversation (Speech.transcript (speech s)) s
    else s
  else s.

End Effects.

End App.

(** ** The live model client ([src/lib/openai.ts]) *)

Module Client.
Import Js OpenAI.

Definition nl : string := String (ascii_of_nat 10) EmptyString.
Definition dq : string := String (ascii_of_nat 34) EmptyString.

Definition SYSTEM_PROMPT : string :=
  nl ++ "You are a friendly, enthusiastic, and kind AI companion for a 5-7 year old child."
  ++ nl ++ "Your goal is to have a 1-minute fun conversation about the image shown."
  ++ nl ++ "- Speak simply and clearly."
  ++ nl ++ "- Keep your responses short (1-2 sentences maximum)."
  ++ nl ++ "- Ask engaging questions about the image or the child's imagination."
  ++ nl ++ "- If the child or the conversation suggests a color change (e.g. "
  ++ dq ++ "It's sunny!" ++ dq ++ ", " ++ dq ++ "I like blue" ++ dq
  ++ "), use the 'change_background' tool."
  ++ nl ++ "- Always be encouraging."
  ++ nl.

(** A value produced by [JSON.parse].  A number is kept as its literal; the
    fields of an object are its own properties, each key once. *)
#[local] Unset Elimination Schemes.
Inductive Json :=
| JNull
| JBool (b : bool)
| JNumber (literal : string)
| JString (s : string)
| JArray (items : list Json)
| JObject (fields : list (string * Json)).
#[local] Set Elimination Schemes.

Fixpoint lookup (key : string) (fields : list (string * Json)) : option Json :=
  match fields with
  | [] => None
  | (k, v) :: rest => if String.eqb k key then Some v else lookup key rest
  end.

(** [value.key]: reading a property of [null] throws; an object yields its
    property or [undefined] (here [None]); the other values have no such
    property. *)
Definition getProperty (value : Json) (key : string) : Outcome (option Json) :=
  match value with
  | JNull =>
      Rejected (mkError ("Cannot read properties of null (reading '" ++ key ++ "')"))
  | JObject fields => Resolved (lookup key fields)
  | _ => Resolved None
  end.

(** One entry of [message.tool_calls], reduced to its [function]. *)
Record FunctionCall := mkCall { fn_name : string; fn_arguments : string }.

(** The [message] of a choice: [content] is a string or [null],
    [tool_calls] an array or absent. *)
Record Message := mkMessage {
  msg_content : option string;
  tool_calls : option (list FunctionCall)
}.

(** A completion, reduced to the messages of its choices. *)
Record Completion := mkCompletion { choices : list Message }.

Record ToolProperty := mkProperty {
  property_name : string;
  property_type : string;
  property_description : string
}.

Record ToolSchema := mkSchema {
  schema_name : string;
  schema_description : string;
  schema_properties : list ToolProperty;
  schema_required : list string
}.

Record Request := mkRequest {
  model : string;
  messages : list ChatMessage;
  tools : list ToolSchema
}.

(** The tool offered with both requests. *)
Definition change_background : ToolSchema :=
  mkSchema "change_background" "Change the background color of the app."
           [mkProperty "color" "string" "A valid CSS color."] ["color"].

(** [toolCall]: [{ color: args.color }], whatever [args.color] is. *)
Record ToolCall := mkTool { color : option Json }.

Record Reply := mkReply { text : string; toolCall : option ToolCall }.

Record StartReply := mkStart {
  start_text : string;
  start_toolCall : option ToolCall;
  initialUserMessage : ChatMessage
}.

(** [message.content || dflt] *)
Definition contentOr (content : option string) (dflt : string) : string :=
  match content with
  | Some c => or_else c dflt
  | None => dflt
  end.

Section Live.

(** [JSON.parse] *)
Variable JSON_parse : string -> Outcome Json.

(** The block that both functions run on the message: only the first tool
    call is read, only [change_background] is accepted, and whatever the
    [try] block throws is caught and logged. *)
Definition readToolCall (message : Message) : option ToolCall :=
  match tool_calls message with
  | Some (call :: _) =>
      if String.eqb (fn_name call) "change_background" then
        match JSON_parse (fn_arguments call) with
        | Resolved args =>
            match getProperty args "color" with
            | Resolved c => Some (mkTool c)
            | Rejected _ => None
            end
        | Rejected _ => None
        end
      else None
  | _ => None
  end.

(** The module variable [openai]: [None] until [initializeOpenAI] has run,
    then the client, taken as its [chat.completions.create]. *)
Definition Handle : Type := Request -> Outcome Completion.

Definition analyzeImageAndStart (openai : option Handle) (base64Image : string)
    : Outcome StartReply :=
  match openai with
  | None => Rejected (mkError "OpenAI not initialized")
  | Some create =>
      let initialUserMessage :=
        mkMsg user
          (Parts [TextPart "What is in this image? Start a conversation with a child about it. Say hello and ask a fun question!";
                  ImageUrlPart base64Image]) in
      match create (mkRequest "gpt-4o"
                      [mkMsg system (Text SYSTEM_PROMPT); initialUserMessage]
                      [change_background]) with
      | Rejected e => Rejected e
      | Resolved response =>
          match nth_error (choices response) 0 with
          | None => Rejected (TypeError_undefined "message")
          | Some message =>
              Resolved (mkStart (contentOr (msg_content message) "Hello! I see something fun!")
                                (readToolCall message)
                                initialUserMessage)
          end
      end
  end.

Definition continueConversation (openai : option Handle) (history : list ChatMessage)
    : Outcome Reply :=
  match openai with
  | None => Rejected (mkError "OpenAI not initialized")
  | Some create =>
      match create (mkRequest "gpt-4o"
                      (mkMsg system (Text SYSTEM_PROMPT) :: history)
                      [change_background]) with
      | Rejected e => Rejected e
      | Resolved response =>
          match nth_error (choices response) 0 with
          | None => Rejected (TypeError_undefined "message")
          | Some message =>
              Resolved (mkReply (contentOr (msg_content message)
                                           "That's interesting! Tell me more.")
                                (readToolCall message))
          end
      end
  end.

End Live.

End Client.

(** ** The component with its key handling ([src/App.tsx]) *)

Module Session.
Import Js OpenAI.

(** The controller state together with the [apiKey] cell, the value stored
    under [openai_api_key] in local storage, the key with which
    [initializeOpenAI] last built the client ([None] before), and the alerts
    shown. *)
Record State := mkSession {
  app : App.State;
  apiKey : string;
  storedKey : option string;
  openaiKey : option string;
  alerts : list string
}.

Definition onApp (f : App.State -> App.State) (s : State) : State :=
  mkSession (f (app s)) (apiKey s) (storedKey s) (openaiKey s) (alerts s).

(** The effect that loads the key when the component mounts. *)
Definition loadKeyEffect (s : State) : State :=
  match storedKey s with
  | Some stored =>
      if truthy stored
      then mkSession (App.setHasKey true (app s)) stored (storedKey s) (Some stored) (alerts s)
      else s
  | None => s
  end.

(** The component after mounting, on what local storage holds. *)
Definition mount (stored : option string) (hostHasRecognition : bool) : State :=
  loadKeyEffect (mkSession (App.initial hostHasRecognition) "" stored None []).

(** [onChange] of the key input. *)
Definition setApiKey (value : string) (s : State) : State :=
  mkSession (app s) value (storedKey s) (openaiKey s) (alerts s).

Definition handleSaveKey (s : State) : State :=
  if startsWith "sk-" (trim (apiKey s))
  then mkSession (App.setHasKey true (app s)) (apiKey s) (Some (apiKey s))
                 (Some (apiKey s)) (alerts s)
  else mkSession (app s) (apiKey s) (storedKey s) (openaiKey s)
                 (alerts s ++ ["Please enter a valid OpenAI API Key starting with sk-"]).

Definition handleResetKey (s : State) : State :=
  mkSession (App.handleResetKey (app s)) "" None (openaiKey s) (alerts s).

(** While a key is held, it is the stored one, the client was built with it,
    and it is not empty. *)
Definition keyHeld (s : State) : Prop :=
  App.hasKey (app s) = true ->
  exists key, key <> "" /\ storedKey s = Some key /\ openaiKey s = Some key.

(** What happens to the component: the handlers of its controls, the
    completion callback of [speak], and the events of the recognizer. *)
Inductive Action :=
| TypeApiKey (value : string)
| SaveKey
| ResetKey
| UploadImage (base64 : string)
| Start (forceDemo : bool)
| TryAgain
| DemoFallback
| SpeechEnd
| TypedResponse (userText : string)
| MicClick
| Recognizer (ev : Speech.RecEvent).

Section Component.

Variable fetchImageAsBase64 : string -> Outcome string.
Variable analyzeImageAndStart : string -> Outcome StartReply.
Variable continueConversation : list ChatMessage -> Outcome Reply.

Definition handle (a : Action) (s : State) : State :=
  match a with
  | TypeApiKey value => setApiKey value s
  | SaveKey => handleSaveKey s
  | ResetKey => handleResetKey s
  | UploadImage base64 => onApp (App.handleImageUpload base64) s
  | Start forceDemo =>
      onApp (App.startConversation fetchImageAsBase64 analyzeImageAndStart forceDemo) s
  | TryAgain => onApp (App.setAppState App.IDLE) s
  | DemoFallback =>
      onApp (fun st => App.startConversation fetchImageAsBase64 analyzeImageAndStart true
                         (App.setAppState App.IDLE st)) s
  | SpeechEnd => onApp App.handleAIBlueSpeechEnd s
  | TypedResponse userText =>
      onApp (App.handleUserResponse continueConversation userText) s
  | MicClick => onApp App.handleMicClick s
  | Recognizer ev => onApp (App.onSpeech (Speech.dispatch ev)) s
  end.

(** One action, then the effect on the end of the user's speech. *)
Definition step (a : Action) (s : State) : State :=
  onApp (App.userSpeechEndEffect continueConversation) (handle a s).

Definition run (actions : list Action) (s : State) : State :=
  fold_left (fun st a => step a st) actions s.

End Component.

End Session.

(** * Properties *)

(** ** Helper lemmas on the JavaScript helpers *)

Import Js OpenAI.

Lemma last_elem_snoc {A : Type} (pre : list A) (x : A) :
  last_elem (pre ++ [x]) = Some x.
Proof.
  unfold last_elem.
  rewrite length_app; simpl.
  replace (List.length pre + 1 - 1) with (List.length pre) by lia.
  rewrite nth_error_app2 by lia.
  now rewrite Nat.sub_diag.
Qed.

Lemma last_elem_nonempty {A : Type} (l : list A) :
  l <> [] -> exists x, last_elem l = Some x.
Proof.
  intros Hne.
  destruct (exists_last Hne) as (pre & x & ->).
  exists x. apply last_elem_snoc.
Qed.

Lemma split_go_length (sep : ascii) (s cur : string) :
  List.length (split_go sep cur s) = S (count_char sep s).
Proof.
  revert cur.
  induction s as [|c s IH]; intros cur; simpl.
  - reflexivity.
  - destruct (Ascii.eqb c sep); simpl; now rewrite IH.
Qed.

Lemma split_length (sep : ascii) (s : string) :
  List.length (split sep s) = S (count_char sep s).
Proof. apply split_go_length. Qed.

(** ** The scripted client *)

(** Split on one keyword test of the chain: the branch where it holds is
    closed by computation. *)
Ltac by_keyword k :=
  match goal with
  | |- context [includes k ?t] =>
      destruct (includes k t); [reflexivity | cbn [orb]]
  end.

Lemma scriptedReply_firstMatch (userText : string) :
  scriptedReply userText = firstMatch keywordTable userText.
Proof.
  unfold scriptedReply, firstMatch, keywordTable.
  cbn [find rowMatches existsb fst snd].
  by_keyword "red". by_keyword "fire". by_keyword "hot".
  by_keyword "blue". by_keyword "water". by_keyword "swim".
  by_keyword "green". by_keyword "grass". by_keyword "leaf".
  by_keyword "fly". by_keyword "wings".
  by_keyword "eat". by_keyword "food". by_keyword "hungry".
  by_keyword "roar". by_keyword "loud".
  by_keyword "friend". by_keyword "play".
  by_keyword "sleep". by_keyword "tired". by_keyword "bed".
  by_keyword "yes". by_keyword "yeah".
  by_keyword "no". by_keyword "nope".
  reflexivity.
Qed.

Lemma firstMatch_none (table : list Row) (userText : string) :
  forallb (fun r => negb (rowMatches userText r)) table = true ->
  firstMatch table userText = defaultReply.
Proof.
  unfold firstMatch.
  induction table as [|r table IH]; simpl; intros H.
  - reflexivity.
  - apply andb_true_iff in H as [Hr Hrest].
    apply negb_true_iff in Hr. rewrite Hr. now apply IH.
Qed.

(** C4, as stated, fails.  On the empty history there is no latest turn
    and the promise rejects instead of returning a reply; and the text that
    is matched is that of the last element of the history, not of the
    latest user turn: when an assistant turn comes last, its text decides. *)
Lemma mockContinueConversation_reads_last_turn_not_latest_user_turn :
  (forall r, mockContinueConversation [] <> Resolved r)
  /\ mockContinueConversation [mkMsg user (Text "I like blue")]
     = Resolved (mkReply "Splash! Blue like the ocean. Can he swim?"
                         (Some (mkTool "#e0f7fa")))
  /\ mockContinueConversation
       [mkMsg user (Text "I like blue");
        mkMsg assistant (Text "Oh wow! Red like a volcano! Is it hot?")]
     = Resolved (mkReply "Oh wow! Red like a volcano! Is it hot?"
                         (Some (mkTool "#ffe5e5"))).
Proof.
  split; [| split; reflexivity].
  intros r H. discriminate H.
Qed.

(** C4, amended.  On every history that is not empty, that is, earlier
    turns followed by a last turn, [mockContinueConversation] resolves with
    the reply that first-match over the fixed keyword table selects for the
    lower-cased text of the last turn, whatever the role of that turn (the
    empty text when its content is not a string); the controller always
    passes a history whose last turn is the user turn.  A text containing
    "red" gets the first row whatever else it contains, "blue" included; a
    text matching no row gets the generic reply without color command;
    "I like blue" gets the color #e0f7fa and a reply containing "ocean". *)
Theorem mockContinueConversation_first_match :
  forall (pre : list ChatMessage) (m : ChatMessage),
    let reply := mockContinueConversation (pre ++ [m]) in
    let userText := userTextOf m in
    reply = Resolved (firstMatch keywordTable userText)
    /\ (includes "red" userText = true ->
        reply = Resolved (mkReply "Oh wow! Red like a volcano! Is it hot?"
                                  (Some (mkTool "#ffe5e5"))))
    /\ (forallb (fun r => negb (rowMatches userText r)) keywordTable = true ->
        reply = Resolved (mkReply "That sounds like so much fun! What else can he do?" None))
    /\ (content m = Text "I like blue" ->
        exists r, reply = Resolved r
                  /\ toolCall r = Some (mkTool "#e0f7fa")
                  /\ includes "ocean" (text r) = true).
Proof.
  intros pre m reply userText.
  assert (Hreply : reply = Resolved (scriptedReply userText)).
  { unfold reply, mockContinueConversation. now rewrite last_elem_snoc. }
  repeat split.
  - rewrite Hreply. f_equal. apply scriptedReply_firstMatch.
  - intros Hred. rewrite Hreply. unfold scriptedReply. now rewrite Hred.
  - intros Hnone. rewrite Hreply, scriptedReply_firstMatch.
    f_equal. now apply firstMatch_none.
  - intros Hblue. rewrite Hreply. unfold userText, userTextOf. rewrite Hblue.
    eexists. split; [reflexivity | split; reflexivity].
Qed.

Lemma mockContinueConversation_first_match_witness :
  mockContinueConversation [mkMsg user (Text "Blue or RED?")]
  = Resolved (mkReply "Oh wow! Red like a volcano! Is it hot?" (Some (mkTool "#ffe5e5")))
  /\ mockContinueConversation
       [mkMsg assistant (Text "Hello!"); mkMsg user (Text "He is purple")]
     = Resolved (mkReply "That sounds like so much fun! What else can he do?" None)
  /\ exists r,
       mockContinueConversation [mkMsg user (Text "I like blue")] = Resolved r
       /\ toolCall r = Some (mkTool "#e0f7fa")
       /\ includes "ocean" (text r) = true.
Proof.
  split; [| split].
  - apply (mockContinueConversation_first_match [] (mkMsg user (Text "Blue or RED?"))).
    reflexivity.
  - apply (mockContinueConversation_first_match
             [mkMsg assistant (Text "Hello!")] (mkMsg user (Text "He is purple"))).
    reflexivity.
  - apply (mockContinueConversation_first_match [] (mkMsg user (Text "I like blue"))).
    reflexivity.
Defined.

(** C5, as stated, fails on the empty history: reading the latest turn of
    an empty array throws, so the promise rejects. *)
Lemma mockContinueConversation_empty_history_rejects :
  mockContinueConversation [] = Rejected (TypeError_undefined "content")
  /\ ~ (forall history, exists r, mockContinueConversation history = Resolved r).
Proof.
  split; [reflexivity |].
  intros H. destruct (H []) as [r Hr]. discriminate Hr.
Qed.

(** C5, amended.  [mockAnalyzeImageAndStart] always resolves, and
    [mockContinueConversation] resolves on every history that is not
    empty. *)
Theorem mock_client_never_fails_on_nonempty_history :
  forall history : list ChatMessage,
    history <> [] ->
    (exists r, mockContinueConversation history = Resolved r)
    /\ (exists r, mockAnalyzeImageAndStart = Resolved r).
Proof.
  intros history Hne. split.
  - destruct (last_elem_nonempty history Hne) as [m Hm].
    unfold mockContinueConversation. rewrite Hm. eauto.
  - unfold mockAnalyzeImageAndStart. eauto.
Qed.

Lemma mock_client_never_fails_on_nonempty_history_witness :
  (exists r, mockContinueConversation [mkMsg user (Text "Image Analysis Request")]
             = Resolved r)
  /\ (exists r, mockAnalyzeImageAndStart = Resolved r).
Proof.
  apply (mock_client_never_fails_on_nonempty_history
           [mkMsg user (Text "Image Analysis Request")]).
  discriminate.
Defined.

(** ** The speech adapter *)

Import Speech.

Lemma starts_app (a b : list Effect) : starts (a ++ b) = starts a + starts b.
Proof. unfold starts. now rewrite filter_app, length_app. Qed.

Lemma invocations_app (cb : Callback) (a b : list Effect) :
  invocations cb (a ++ b) = invocations cb a + invocations cb b.
Proof. unfold invocations. now rewrite filter_app, length_app. Qed.

Lemma invocations_invoke (cb : Callback) : invocations cb [Invoke cb] = 1.
Proof. unfold invocations; simpl. now rewrite Nat.eqb_refl. Qed.

Lemma exec_bind {A B : Type} (m : M A) (k : A -> M B) (h : Hook) :
  exec (bind m k) h = exec (k (fst (m h))) (snd (m h)).
Proof. unfold exec, bind. now destruct (m h). Qed.

(** Unfold the handlers of the hook down to the record. *)
Ltac run_hook :=
  unfold exec, dispatch, recognition_onstart, recognition_onresult, recognition_onend,
    recognition_onerror, startListening, stopListening, bind, ret, getShouldListen,
    getHasRecognition, setIsListening, setIsSpeaking, setTranscript, setShouldListen,
    emit in *;
  cbn [fst snd isListening isSpeaking transcript isSupported shouldListen
       hasRecognition trace] in *.

(** Count the [start] calls of a trace extended by known effects. *)
Ltac count_starts := rewrite ?starts_app; unfold starts; simpl; lia.

(** A recognizer event neither sets the intent flag nor, while the flag is
    clear, restarts the recognizer. *)
Lemma dispatch_intent_clear (ev : RecEvent) (h : Hook) :
  shouldListen h = false ->
  shouldListen (exec (dispatch ev) h) = false
  /\ starts (trace (exec (dispatch ev) h)) = starts (trace h).
Proof.
  intros Hoff. destruct h as [l sp t sup sh has tr]; simpl in Hoff; subst sh.
  destruct has; [| now run_hook].
  destruct ev as [| results | | error]; run_hook.
  - split; [reflexivity | count_starts].
  - destruct (last_elem results) as [alts |]; [| now split].
    destruct (nth_error alts 0); [| now split].
    run_hook. split; [reflexivity | count_starts].
  - split; [reflexivity | count_starts].
  - destruct (String.eqb error "not-allowed" || String.eqb error "service-not-allowed");
      run_hook; (split; [reflexivity | count_starts]).
Qed.

Lemma dispatchAll_intent_clear (evs : list RecEvent) (h : Hook) :
  shouldListen h = false ->
  shouldListen (exec (dispatchAll evs) h) = false
  /\ starts (trace (exec (dispatchAll evs) h)) = starts (trace h).
Proof.
  revert h. induction evs as [| ev evs IH]; intros h Hoff.
  - now split.
  - cbn [dispatchAll]. rewrite exec_bind.
    destruct (dispatch_intent_clear ev h Hoff) as [Hoff' Hst].
    destruct (IH _ Hoff') as [Hfinal Hst'].
    fold (exec (dispatch ev) h).
    split; [exact Hfinal | now rewrite Hst'].
Qed.

(** C7, as stated, fails: when the recognizer ends on its own after
    [startListening], with no [stopListening] in between, the hook reports
    [isListening = false] although the intent flag is still set. *)
Lemma onend_reports_not_listening :
  let h := exec (startListening ;; dispatchAll [OnStart; OnEnd]) (useSpeech true) in
  isListening h = false
  /\ shouldListen h = true
  /\ trace h = [SetTranscript ""; SetShouldListen true; RecognitionStart;
                SetIsListening true; SetIsListening false; RecognitionStart].
Proof. repeat split. Qed.

(** C7, amended.  If the recognizer ends while the intent flag is set, the
    handler reports [isListening = false] and at once calls [start] on the
    recognizer again; the flag stays set, and [isListening] is true again
    when the recognizer reports that it has started.  After [stopListening]
    an end event does not restart it. *)
Theorem onend_restarts_while_intent_set :
  forall h : Hook,
    hasRecognition h = true ->
    shouldListen h = true ->
    let h' := exec (dispatch OnEnd) h in
    trace h' = (trace h ++ [SetIsListening false; RecognitionStart])%list
    /\ isListening h' = false
    /\ shouldListen h' = true
    /\ isListening (exec (dispatch OnStart) h') = true
    /\ (let stopped := exec (stopListening ;; dispatch OnEnd) h in
        shouldListen stopped = false
        /\ isListening stopped = false
        /\ starts (trace stopped) = starts (trace h)).
Proof.
  intros [l sp t sup sh has tr] Hrec Hon; simpl in Hrec, Hon; subst has sh.
  run_hook.
  repeat split; try reflexivity.
  - now rewrite <- app_assoc.
  - count_starts.
Qed.

Lemma onend_restarts_while_intent_set_witness :
  let h := exec (startListening ;; dispatch OnStart) (useSpeech true) in
  let h' := exec (dispatch OnEnd) h in
  trace h' = (trace h ++ [SetIsListening false; RecognitionStart])%list
  /\ isListening h' = false
  /\ shouldListen h' = true
  /\ isListening (exec (dispatch OnStart) h') = true
  /\ (let stopped := exec (stopListening ;; dispatch OnEnd) h in
      shouldListen stopped = false
      /\ isListening stopped = false
      /\ starts (trace stopped) = starts (trace h)).
Proof.
  apply (onend_restarts_while_intent_set
           (exec (startListening ;; dispatch OnStart) (useSpeech true)));
    reflexivity.
Defined.

(** C8.  After a recognition error of the permission-denied class
    ([not-allowed] or [service-not-allowed]) the intent flag is false,
    [isListening] is false, and neither the handler itself nor anything the
    hook does on the events the recognizer sends next issues a [start]: the
    number of [start] calls stays what it was before the error, and the
    flag stays false.  After any other error [isListening] is false, the
    intent flag is as it was, and the handler issues no [start] either. *)
Theorem onerror_permission_clears_intent :
  forall (h : Hook) (error : string),
    let h' := exec (recognition_onerror error) h in
    isListening h' = false
    /\ starts (trace h') = starts (trace h)
    /\ (error = "not-allowed" \/ error = "service-not-allowed" ->
        shouldListen h' = false
        /\ trace h' = (trace h ++ [SetShouldListen false; SetIsListening false])%list
        /\ forall evs : list RecEvent,
             starts (trace (exec (dispatchAll evs) h')) = starts (trace h)
             /\ shouldListen (exec (dispatchAll evs) h') = false)
    /\ (error <> "not-allowed" -> error <> "service-not-allowed" ->
        shouldListen h' = shouldListen h
        /\ trace h' = (trace h ++ [SetIsListening false])%list).
Proof.
  intros h error h'.
  assert (Hstarts : starts (trace h') = starts (trace h)).
  { unfold h'. destruct h as [l sp t sup sh has tr]. run_hook.
    destruct (String.eqb error "not-allowed" || String.eqb error "service-not-allowed");
      run_hook; count_starts. }
  assert (Hdenied :
    String.eqb error "not-allowed" || String.eqb error "service-not-allowed" = true ->
    shouldListen h' = false
    /\ trace h' = (trace h ++ [SetShouldListen false; SetIsListening false])%list).
  { intros Hb. unfold h'. destruct h as [l sp t sup sh has tr]. run_hook. rewrite Hb.
    run_hook. split; [reflexivity | now rewrite <- app_assoc]. }
  split.
  { unfold h'. destruct h. run_hook.
    now destruct (String.eqb error "not-allowed" || String.eqb error "service-not-allowed"). }
  split; [exact Hstarts |]. split.
  - intros Hclass.
    assert (Hb : String.eqb error "not-allowed" || String.eqb error "service-not-allowed"
                 = true) by (destruct Hclass as [-> | ->]; reflexivity).
    destruct (Hdenied Hb) as [Hoff Htrace].
    split; [exact Hoff |]. split; [exact Htrace |].
    intros evs. destruct (dispatchAll_intent_clear evs h' Hoff) as [Hoff' Hst].
    split; [now rewrite Hst | exact Hoff'].
  - intros Hna Hsna.
    apply String.eqb_neq in Hna. apply String.eqb_neq in Hsna.
    unfold h'. destruct h as [l sp t sup sh has tr]. run_hook. rewrite Hna, Hsna.
    run_hook. split; reflexivity.
Qed.

Lemma onerror_permission_clears_intent_witness :
  let listening := exec (startListening ;; dispatch OnStart) (useSpeech true) in
  (let h' := exec (recognition_onerror "not-allowed") listening in
   shouldListen h' = false
   /\ trace h' = (trace listening ++ [SetShouldListen false; SetIsListening false])%list
   /\ forall evs : list RecEvent,
        starts (trace (exec (dispatchAll evs) h')) = starts (trace listening)
        /\ shouldListen (exec (dispatchAll evs) h') = false)
  /\ (let h' := exec (recognition_onerror "no-speech") listening in
      isListening h' = false
      /\ shouldListen h' = shouldListen listening
      /\ trace h' = (trace listening ++ [SetIsListening false])%list).
Proof.
  split.
  - apply (onerror_permission_clears_intent
             (exec (startListening ;; dispatch OnStart) (useSpeech true)) "not-allowed").
    left; reflexivity.
  - split.
    + apply (onerror_permission_clears_intent
               (exec (startListening ;; dispatch OnStart) (useSpeech true)) "no-speech").
    + apply (onerror_permission_clears_intent
               (exec (startListening ;; dispatch OnStart) (useSpeech true)) "no-speech");
        discriminate.
Defined.

(** C9.  [startListening] sets the transcript to the empty string, then
    sets the intent flag, and only then calls [start] on the recognizer
    (when there is one). *)
Theorem startListening_resets_transcript :
  forall h : Hook,
    let h' := exec startListening h in
    transcript h' = ""
    /\ shouldListen h' = true
    /\ trace h' = (trace h ++ [SetTranscript ""; SetShouldListen true]
                           ++ (if hasRecognition h then [RecognitionStart] else []))%list.
Proof.
  intros [l sp t sup sh has tr]. run_hook.
  destruct has; run_hook; repeat split; now rewrite <- !app_assoc.
Qed.

(** C10, as stated, fails: a result event replaces the transcript; what
    was there before is not kept as a prefix. *)
Lemma onresult_replaces_transcript :
  let h := exec (startListening ;; dispatchAll [OnStart; OnResult [["hello"]]])
                (useSpeech true) in
  let h' := exec (dispatch (OnResult [["world"]])) h in
  transcript h = "hello"
  /\ transcript h' = "world"
  /\ prefix (transcript h) (transcript h') = false.
Proof. repeat split. Qed.

(** C10, amended.  Each recognition result event sets the transcript to
    the first alternative of the last result of the event, whatever the
    transcript was before. *)
Theorem onresult_sets_transcript_to_last_result :
  forall (h : Hook) (earlier : list (list string)) (text : string)
         (alternatives : list string),
    hasRecognition h = true ->
    transcript (exec (dispatch (OnResult (earlier ++ [text :: alternatives]))) h) = text.
Proof.
  intros [l sp t sup sh has tr] earlier text alternatives Hrec; simpl in Hrec; subst has.
  run_hook. rewrite last_elem_snoc. reflexivity.
Qed.

Lemma onresult_sets_transcript_to_last_result_witness :
  transcript (exec (dispatch (OnResult ([["I like"]] ++ [["blue"; "blew"]])))
                   (exec startListening (useSpeech true))) = "blue".
Proof.
  apply (onresult_sets_transcript_to_last_result
           (exec startListening (useSpeech true)) [["I like"]] "blue" ["blew"]).
  reflexivity.
Defined.

(** *** Synthesis: the completion callback *)

Ltac run_speak :=
  unfold exec, speakThen, speak, deliver, utterance_onstart, utterance_onend,
    utterance_onerror, safetyTimer_fire, clearTimeout, callOnEnd, bind, ret,
    setIsSpeaking, emit in *;
  cbn [fst snd isListening isSpeaking transcript isSupported shouldListen
       hasRecognition trace safetyTimer onEnd] in *.

(** Count the invocations in a trace extended by known effects. *)
Ltac count_invocations :=
  rewrite ?invocations_app, ?invocations_invoke; unfold invocations; simpl; lia.

(** Once the timer is cleared or has fired, start events and timer ticks
    invoke nothing. *)
Lemma deliverAll_quiet (cb : Callback) (evs : list SynthEvent) :
  forall (c : SpeakCall) (h : Hook),
    disarmed c ->
    quiet evs = true ->
    invocations cb (trace (snd (deliverAll evs c h))) = invocations cb (trace h).
Proof.
  induction evs as [| ev evs IH]; intros c h Hc Hq.
  - reflexivity.
  - destruct c as [tm oe]. destruct h as [l sp t sup sh has tr].
    destruct ev as [| | | speaking]; simpl in Hq; try discriminate.
    + cbn [deliverAll]. run_speak.
      rewrite IH by assumption. run_speak. count_invocations.
    + cbn [deliverAll]. run_speak.
      destruct Hc as [Hc | Hc]; simpl in Hc; subst tm; run_speak;
        (rewrite IH; [reflexivity | (now left) || (now right) | assumption]).
Qed.

(** From an armed timer, a settling run of the engine invokes the callback
    once. *)
Lemma deliverAll_settles (cb : Callback) (evs : list SynthEvent) :
  forall (ms : Z) (h : Hook),
    settlesOnce evs = true ->
    invocations cb (trace (snd (deliverAll evs (mkCall (Armed ms) (Some cb)) h)))
    = S (invocations cb (trace h)).
Proof.
  induction evs as [| ev evs IH]; intros ms h Hs.
  - discriminate.
  - destruct h as [l sp t sup sh has tr].
    destruct ev as [| | | speaking]; simpl in Hs; cbn [deliverAll]; run_speak.
    + rewrite IH by assumption. run_speak. count_invocations.
    + rewrite deliverAll_quiet; [| now left | assumption]. run_speak. count_invocations.
    + rewrite deliverAll_quiet; [| now left | assumption]. run_speak. count_invocations.
    + destruct speaking; [| discriminate]. run_speak.
      rewrite deliverAll_quiet; [| now right | assumption]. run_speak. count_invocations.
Qed.

(** C1, as stated, fails.  On the empty text [speak] returns before it
    creates the utterance or the timer, and the callback is never invoked;
    when the engine never signals and is not flagged as speaking as the
    delay elapses, the timer callback does nothing; an end event that
    arrives after the timer forced completion invokes the callback again. *)
Lemma speak_callback_not_exactly_once :
  let calls text evs :=
    invocations 0 (trace (exec (speakThen text (Some 0) evs) (useSpeech true))) in
  calls "" [UttStart; UttEnd] = 0
  /\ calls "" [UttError] = 0
  /\ calls "" [TimerDue true] = 0
  /\ calls "Hello there" [TimerDue false] = 0
  /\ calls "Hello there" [UttStart; TimerDue true; UttEnd] = 2.
Proof. repeat split. Qed.

(** C1, amended.  On the empty text [speak] returns without ever invoking
    the callback.  On any other text the callback is invoked exactly once
    when the engine settles the utterance once: it reports one end or one
    error, or it reports neither and is still speaking when the safety
    delay elapses. *)
Theorem speak_invokes_callback_once :
  forall (text : string) (cb : Callback) (evs : list SynthEvent) (h : Hook),
    let h' := exec (speakThen text (Some cb) evs) h in
    (text = "" -> h' = h)
    /\ (text <> "" -> settlesOnce evs = true ->
        invocations cb (trace h') = S (invocations cb (trace h))).
Proof.
  intros text cb evs h h'. split.
  - intros ->. reflexivity.
  - intros Hne Hs. apply String.eqb_neq in Hne.
    unfold h'. destruct h as [l sp t sup sh has tr].
    run_speak. rewrite Hne. run_speak.
    match goal with
    | |- context [deliverAll evs ?c ?h0] =>
        pose proof (deliverAll_settles cb evs (safetyDelay text) h0 Hs) as Hrun;
        destruct (deliverAll evs c h0) as [c' h1]
    end.
    cbn [fst snd] in *. rewrite Hrun. run_speak. count_invocations.
Qed.

Lemma speak_invokes_callback_once_witness :
  let h := useSpeech true in
  exec (speakThen "" (Some 7) [UttStart; UttEnd]) h = h
  /\ invocations 7 (trace (exec (speakThen "Hi" (Some 7) [UttStart; UttEnd]) h)) = 1
  /\ invocations 7 (trace (exec (speakThen "Hi" (Some 7) [UttError]) h)) = 1
  /\ invocations 7 (trace (exec (speakThen "Hi" (Some 7) [UttStart; TimerDue true]) h)) = 1.
Proof.
  split; [| split; [| split]].
  - apply (speak_invokes_callback_once "" 7 [UttStart; UttEnd] (useSpeech true)).
    reflexivity.
  - apply (speak_invokes_callback_once "Hi" 7 [UttStart; UttEnd] (useSpeech true));
      [discriminate | reflexivity].
  - apply (speak_invokes_callback_once "Hi" 7 [UttError] (useSpeech true));
      [discriminate | reflexivity].
  - apply (speak_invokes_callback_once "Hi" 7 [UttStart; TimerDue true] (useSpeech true));
      [discriminate | reflexivity].
Defined.

(** *** Synthesis: the safety delay *)

Lemma contentDuration_words (text : string) :
  contentDuration text = Z.max 2000 (500 * Z.of_nat (S (count_char " " text))).
Proof. unfold contentDuration. rewrite split_length. f_equal. lia. Qed.

(** C2, as stated, fails: the 2 seconds are a floor under the estimate of
    500 ms per word, not a term added to it.  For ten words the delay is
    7000 ms, not 2000 + 5000 + 2000. *)
Lemma safetyDelay_ten_words_is_not_nine_seconds :
  let text := "one two three four five six seven eight nine ten" in
  List.length (split " " text) = 10
  /\ safetyDelay text = 7000%Z
  /\ safetyDelay text <> (2000 + 500 * 10 + 2000)%Z.
Proof. repeat split. discriminate. Qed.

(** C2, amended.  The delay after which the safety timer forces completion
    is the larger of 2000 ms and 500 ms per word, plus a buffer of 2000 ms,
    where the words are the pieces of the text between single spaces (one
    more than the number of spaces).  It is at least 4000 ms and at most
    2000 + 500 per word + 2000; [speak] arms the timer with it on every
    text that is not empty; for ten words it is 7000 ms, within 9
    seconds. *)
Theorem safetyDelay_is_floor_of_estimate_plus_buffer :
  forall text : string,
    let words := Z.of_nat (List.length (split " " text)) in
    words = Z.of_nat (S (count_char " " text))
    /\ safetyDelay text = (Z.max 2000 (500 * words) + 2000)%Z
    /\ (4000 <= safetyDelay text <= 2000 + 500 * words + 2000)%Z
    /\ (forall (cb : option Callback) (h : Hook),
          text <> "" ->
          fst (speak text cb h) = Some (mkCall (Armed (safetyDelay text)) cb)
          /\ trace (snd (speak text cb h))
             = (trace h ++ [SynthCancel; SetTimeout (safetyDelay text); SynthSpeak text])%list)
    /\ (words = 10%Z -> safetyDelay text = 7000%Z /\ (safetyDelay text <= 9000)%Z).
Proof.
  intros text words.
  assert (Hwords : words = Z.of_nat (S (count_char " " text))).
  { unfold words. now rewrite split_length. }
  assert (Hdelay : safetyDelay text = (Z.max 2000 (500 * words) + 2000)%Z).
  { unfold safetyDelay. rewrite contentDuration_words, <- Hwords. reflexivity. }
  split; [exact Hwords |]. split; [exact Hdelay |]. split; [| split].
  - rewrite Hdelay. lia.
  - intros cb h Hne. apply String.eqb_neq in Hne.
    destruct h as [l sp t sup sh has tr]. run_speak. rewrite Hne. run_speak.
    split; [reflexivity | now rewrite <- !app_assoc].
  - intros Hten. rewrite Hdelay, Hten. split; [reflexivity | lia].
Qed.

Lemma safetyDelay_is_floor_of_estimate_plus_buffer_witness :
  let text := "one two three four five six seven eight nine ten" in
  (safetyDelay text = 7000%Z /\ (safetyDelay text <= 9000)%Z)
  /\ fst (speak text (Some 0) (useSpeech true))
     = Some (mkCall (Armed (safetyDelay text)) (Some 0)).
Proof.
  split.
  - apply (safetyDelay_is_floor_of_estimate_plus_buffer
             "one two three four five six seven eight nine ten").
    reflexivity.
  - apply (safetyDelay_is_floor_of_estimate_plus_buffer
             "one two three four five six seven eight nine ten").
    discriminate.
Defined.

(** ** The conversation controller *)

Section ControllerFacts.

Variable fetchImageAsBase64 : string -> Outcome string.
Variable analyzeImageAndStart : string -> Outcome StartReply.
Variable continueConversation : list ChatMessage -> Outcome Reply.

Let startConversation := App.startConversation fetchImageAsBase64 analyzeImageAndStart.
Let handleUserResponse := App.handleUserResponse continueConversation.
Let requestAnalysis := App.requestAnalysis fetchImageAsBase64 analyzeImageAndStart.





End ControllerFacts.




(** C6, as stated, fails when a conversation is started over a history
    that is not empty: the two turns are not appended, they replace the
    history, and the earlier turns are gone.  Here a live conversation
    fails in its second request and the user falls back to the demo. *)
Lemma startConversation_replaces_history :
  let fetch := fun src : string => Resolved ("data:image/svg+xml;base64," ++ src) in
  let analyze := fun b64 : string =>
    Resolved (mkStart "Hello! I see something fun!" None
                (mkMsg user (Parts [TextPart "What is in this image?"; ImageUrlPart b64]))) in
  let continue := fun _ : list ChatMessage => @Rejected Reply (mkError "Connection error.") in
  let s1 := App.startConversation fetch analyze false (App.setHasKey true (App.initial true)) in
  let s2 := App.handleUserResponse continue "I like blue" (App.handleAIBlueSpeechEnd s1) in
  let s3 := App.startConversation fetch analyze true (App.setAppState App.IDLE s2) in
  App.appState s2 = App.ERROR
  /\ List.length (App.history s2) = 3
  /\ App.appState s3 = App.SPEAKING
  /\ App.history s3
     = [mkMsg user (Text "Image Analysis Request");
        mkMsg assistant
          (Text "Wow! That looks like a super happy dinosaur! Is he going on an adventure?")]
  /\ (forall u a, App.history s3 <> (App.history s2 ++ [u; a])%list)
  /\ (forall m, In m (App.history s2) -> ~ In m (App.history s3)).
Proof.
  repeat split.
  - intros u a H. discriminate H.
  - intros m Hin Hin'. simpl in Hin, Hin'.
    destruct Hin as [<- | [<- | [<- | []]]];
      destruct Hin' as [H | [H | []]]; discriminate H.
Qed.

(** C6, amended.  When the Analyzing state succeeds, the controller sets
    the history to exactly two turns, the user-image turn followed by the
    assistant-reply turn, in place of whatever the history held; on an
    empty history that is the same as appending them.  A Thinking step only
    appends: when its request resolves, the user turn followed by the
    assistant turn that holds the text of the reply; when its request
    rejects, the user turn alone; the turns before stay as they were. *)
Theorem startConversation_success_sets_two_turns :
  forall (fetch : string -> Outcome string)
         (analyze : string -> Outcome StartReply)
         (continue : list ChatMessage -> Outcome Reply)
         (forceDemo : bool) (s : App.State) (r : StartReply),
    App.hasKey s || forceDemo = true ->
    App.requestAnalysis fetch analyze (forceDemo || App.isDemoMode s) (App.imageSrc s)
    = Resolved r ->
    let s' := App.startConversation fetch analyze forceDemo s in
    let turns := [initialUserMessage r; mkMsg assistant (Text (start_text r))] in
    App.appState s' = App.SPEAKING
    /\ App.history s' = turns
    /\ (App.history s = [] -> App.history s' = (App.history s ++ turns)%list)
    /\ (forall (userText : string) (st : App.State),
          let userTurn := mkMsg user (Text userText) in
          let request :=
            if App.isDemoMode st
            then mockContinueConversation (App.history st ++ [userTurn])%list
            else continue (App.history st ++ [userTurn])%list in
          App.history (App.handleUserResponse continue userText st)
          = match request with
            | Resolved reply =>
                (App.history st ++ [userTurn; mkMsg assistant (Text (text reply))])%list
            | Rejected _ => (App.history st ++ [userTurn])%list
            end).
Proof.
  intros fetch analyze continue forceDemo s r Hguard Hreq s' turns.
  assert (Hs' : App.appState s' = App.SPEAKING /\ App.history s' = turns).
  { unfold s', App.startConversation.
    replace (negb (App.hasKey s) && negb forceDemo) with false
      by (destruct (App.hasKey s), forceDemo; simpl in *; congruence).
    rewrite Hreq. now destruct (start_toolCall r). }
  destruct Hs' as [Hst Hh].
  split; [exact Hst |]. split; [exact Hh |]. split.
  - intros ->. exact Hh.
  - intros userText st userTurn request. unfold App.handleUserResponse.
    fold userTurn. fold request.
    destruct request as [reply | e].
    + destruct (toolCall reply); cbn; now rewrite <- app_assoc.
    + reflexivity.
Qed.

Lemma startConversation_success_sets_two_turns_witness :
  let fetch := fun src : string => Resolved ("data:image/svg+xml;base64," ++ src) in
  let analyze := fun _ : string => @Rejected StartReply (mkError "OpenAI not initialized") in
  let s' := App.startConversation fetch analyze true (App.initial true) in
  App.appState s' = App.SPEAKING
  /\ App.history s'
     = [mkMsg user (Text "Image Analysis Request");
        mkMsg assistant
          (Text "Wow! That looks like a super happy dinosaur! Is he going on an adventure?")].
Proof.
  intros fetch analyze s'.
  destruct (startConversation_success_sets_two_turns fetch analyze
              (fun _ => Rejected (mkError "Connection error.")) true (App.initial true)
              (mkStart "Wow! That looks like a super happy dinosaur! Is he going on an adventure?"
                       (Some (mkTool "#e3fded"))
                       (mkMsg user (Text "Image Analysis Request")))
              eq_refl eq_refl)
    as (Hst & Hh & _).
  split; [exact Hst | exact Hh].
Defined.

(** * Further properties of the code *)

(** ** The speech adapter: synthesis *)

(** With the timer cleared or fired, the callback runs once per end or
    error event. *)
Lemma deliverAll_count_disarmed (cb : Callback) (evs : list SynthEvent) :
  forall (c : SpeakCall) (h : Hook),
    disarmed c ->
    onEnd c = Some cb ->
    invocations cb (trace (snd (deliverAll evs c h)))
    = invocations cb (trace h) + completions evs.
Proof.
  induction evs as [| ev evs IH]; intros c h Hc Hcb.
  - simpl. lia.
  - destruct c as [tm oe]; simpl in Hcb; subst oe.
    destruct h as [l sp t sup sh has tr].
    destruct Hc as [Hc | Hc]; simpl in Hc; subst tm;
      destruct ev as [| | | speaking]; cbn [deliverAll completions]; run_speak;
      (rewrite IH; [| (now left) || (now right) | reflexivity]);
      run_speak; count_invocations.
Qed.

Lemma deliverAll_count_armed (cb : Callback) (evs : list SynthEvent) :
  forall (ms : Z) (h : Hook),
    invocations cb (trace (snd (deliverAll evs (mkCall (Armed ms) (Some cb)) h)))
    = invocations cb (trace h) + completions evs + (if timerForces evs then 1 else 0).
Proof.
  induction evs as [| ev evs IH]; intros ms h.
  - simpl. lia.
  - destruct h as [l sp t sup sh has tr].
    destruct ev as [| | | speaking]; cbn [deliverAll completions timerForces]; run_speak.
    + rewrite IH. run_speak. count_invocations.
    + rewrite deliverAll_count_disarmed; [| now left | reflexivity].
      run_speak. count_invocations.
    + rewrite deliverAll_count_disarmed; [| now left | reflexivity].
      run_speak. count_invocations.
    + destruct speaking; run_speak;
        (rewrite deliverAll_count_disarmed; [| now right | reflexivity]);
        run_speak; count_invocations.
Qed.

(** X1.  For a text that is not empty, the number of times [speak] runs its
    callback is the number of end and error events of the utterance, plus
    one if the safety delay elapses before any of them while the engine is
    flagged as speaking. *)
Theorem speak_callback_count :
  forall (text : string) (cb : Callback) (evs : list SynthEvent) (h : Hook),
    text <> "" ->
    invocations cb (trace (exec (speakThen text (Some cb) evs) h))
    = invocations cb (trace h) + completions evs + (if timerForces evs then 1 else 0).
Proof.
  intros text cb evs h Hne. apply String.eqb_neq in Hne.
  destruct h as [l sp t sup sh has tr].
  run_speak. rewrite Hne. run_speak.
  match goal with
  | |- context [deliverAll evs ?c ?h0] =>
      pose proof (deliverAll_count_armed cb evs (safetyDelay text) h0) as Hrun;
      destruct (deliverAll evs c h0) as [c' h1]
  end.
  cbn [fst snd] in *. rewrite Hrun. run_speak. count_invocations.
Qed.

Lemma speak_callback_count_witness :
  invocations 3 (trace (exec (speakThen "Hello" (Some 3)
                                [UttStart; TimerDue true; UttError; UttEnd])
                             (useSpeech true))) = 3.
Proof.
  apply (speak_callback_count "Hello" 3 [UttStart; TimerDue true; UttError; UttEnd]
           (useSpeech true)).
  discriminate.
Defined.

(** The fields that an event of an utterance leaves alone, then the count
    of the invocations of another callback. *)
Ltac frame_goal :=
  cbv zeta; run_speak;
  split; [reflexivity |];
  split; [reflexivity |];
  split; [reflexivity |];
  split; [reflexivity |];
  split; [reflexivity |];
  split;
  [ unfold recognizerCommands; rewrite ?filter_app; simpl; rewrite ?app_nil_r; reflexivity
  | let other := fresh "other" in
    let Hneq := fresh "Hneq" in
    intros other Hneq; rewrite ?invocations_app; unfold invocations; simpl;
    repeat match goal with
           | |- context [Nat.eqb other ?cb] =>
               destruct (Nat.eqb_spec other cb); [subst; congruence |]
           end;
    simpl; lia ].

(** What an event of an utterance leaves alone. *)
Lemma deliver_frame (ev : SynthEvent) (c : SpeakCall) (h : Hook) :
  let r := deliver ev c h in
  onEnd (fst r) = onEnd c
  /\ isListening (snd r) = isListening h
  /\ transcript (snd r) = transcript h
  /\ shouldListen (snd r) = shouldListen h
  /\ hasRecognition (snd r) = hasRecognition h
  /\ recognizerCommands (trace (snd r)) = recognizerCommands (trace h)
  /\ (forall other, onEnd c <> Some other ->
        invocations other (trace (snd r)) = invocations other (trace h)).
Proof.
  destruct c as [tm oe]. destruct h as [l sp t sup sh has tr].
  destruct ev as [| | | speaking].
  - frame_goal.
  - destruct tm, oe as [cb |]; frame_goal.
  - destruct tm, oe as [cb |]; frame_goal.
  - destruct tm, speaking, oe as [cb |]; frame_goal.
Qed.

Lemma deliverAll_frame (evs : list SynthEvent) :
  forall (c : SpeakCall) (h : Hook),
    let r := deliverAll evs c h in
    isListening (snd r) = isListening h
    /\ transcript (snd r) = transcript h
    /\ shouldListen (snd r) = shouldListen h
    /\ hasRecognition (snd r) = hasRecognition h
    /\ recognizerCommands (trace (snd r)) = recognizerCommands (trace h)
    /\ (forall other, onEnd c <> Some other ->
          invocations other (trace (snd r)) = invocations other (trace h)).
Proof.
  induction evs as [| ev evs IH]; intros c h.
  - cbn. repeat split; reflexivity.
  - cbn [deliverAll]. unfold bind.
    pose proof (deliver_frame ev c h) as Hstep. cbv zeta in Hstep.
    destruct (deliver ev c h) as [c1 h1]. cbn [fst snd] in Hstep.
    destruct Hstep as (Hcb & Hl & Ht & Hs & Hr & Hc & Hi).
    specialize (IH c1 h1). cbv zeta in IH |- *.
    destruct IH as (Hl' & Ht' & Hs' & Hr' & Hc' & Hi').
    split; [congruence |]. split; [congruence |]. split; [congruence |].
    split; [congruence |]. split; [congruence |].
    intros other Hneq. rewrite Hi' by (rewrite Hcb; exact Hneq). now apply Hi.
Qed.

Lemma dispatch_frame (ev : RecEvent) (h : Hook) :
  isSpeaking (exec (dispatch ev) h) = isSpeaking h
  /\ hasRecognition (exec (dispatch ev) h) = hasRecognition h
  /\ invoked (trace (exec (dispatch ev) h)) = invoked (trace h).
Proof.
  destruct h as [l sp t sup sh has tr].
  destruct has; [| now run_hook].
  destruct ev as [| results | | error]; run_hook.
  - unfold invoked. rewrite filter_app; simpl. now rewrite app_nil_r.
  - destruct (last_elem results) as [alts |]; [| now repeat split].
    destruct (nth_error alts 0); [| now repeat split].
    run_hook. unfold invoked. rewrite filter_app; simpl. now rewrite app_nil_r.
  - destruct sh; run_hook; unfold invoked; rewrite ?filter_app; simpl;
      now rewrite ?app_nil_r.
  - destruct (String.eqb error "not-allowed" || String.eqb error "service-not-allowed");
      run_hook; unfold invoked; rewrite ?filter_app; simpl; now rewrite ?app_nil_r.
Qed.

Lemma dispatchAll_frame (evs : list RecEvent) :
  forall h : Hook,
    isSpeaking (exec (dispatchAll evs) h) = isSpeaking h
    /\ hasRecognition (exec (dispatchAll evs) h) = hasRecognition h
    /\ invoked (trace (exec (dispatchAll evs) h)) = invoked (trace h).
Proof.
  induction evs as [| ev evs IH]; intros h.
  - now repeat split.
  - cbn [dispatchAll]. rewrite exec_bind. fold (exec (dispatch ev) h).
    destruct (dispatch_frame ev h) as (Hs & Hr & Hi).
    destruct (IH (exec (dispatch ev) h)) as (Hs' & Hr' & Hi').
    repeat split; congruence.
Qed.

(** X2.  The two halves of the hook do not interfere.  A [speak] call and
    the events of its utterance leave [isListening], the transcript and the
    intent flag as they were, send nothing to the recognizer and invoke no
    callback but the one given; the events of the recognizer leave
    [isSpeaking] as it was and invoke no callback at all. *)
Theorem synthesis_and_recognition_do_not_interfere :
  forall (text : string) (onEnd : option Callback) (evs : list SynthEvent)
         (revs : list RecEvent) (h : Hook),
    let spoken := exec (speakThen text onEnd evs) h in
    let heard := exec (dispatchAll revs) h in
    isListening spoken = isListening h
    /\ transcript spoken = transcript h
    /\ shouldListen spoken = shouldListen h
    /\ recognizerCommands (trace spoken) = recognizerCommands (trace h)
    /\ (forall other, onEnd <> Some other ->
          invocations other (trace spoken) = invocations other (trace h))
    /\ isSpeaking heard = isSpeaking h
    /\ invoked (trace heard) = invoked (trace h).
Proof.
  intros text cb evs revs h spoken heard.
  assert (Hspoken :
    isListening spoken = isListening h
    /\ transcript spoken = transcript h
    /\ shouldListen spoken = shouldListen h
    /\ recognizerCommands (trace spoken) = recognizerCommands (trace h)
    /\ (forall other, cb <> Some other ->
          invocations other (trace spoken) = invocations other (trace h))).
  { unfold spoken. destruct h as [l sp t sup sh has tr].
    unfold exec, speakThen, speak, bind.
    destruct (String.eqb text ""); [now repeat split |].
    run_speak.
    match goal with
    | |- context [deliverAll evs ?c ?h0] =>
        pose proof (deliverAll_frame evs c h0) as Hrun; cbv zeta in Hrun;
        destruct (deliverAll evs c h0) as [c' h1]
    end.
    cbn [fst snd isListening transcript shouldListen hasRecognition trace onEnd] in *.
    destruct Hrun as (Hl & Ht & Hs & _ & Hc & Hi).
    split; [exact Hl |]. split; [exact Ht |]. split; [exact Hs |]. split.
    - rewrite Hc. unfold recognizerCommands. rewrite !filter_app; simpl.
      now rewrite !app_nil_r.
    - intros other Hneq. rewrite (Hi other Hneq). count_invocations. }
  destruct Hspoken as (H1 & H2 & H3 & H4 & H5).
  destruct (dispatchAll_frame revs h) as (H6 & _ & H7).
  repeat split; assumption.
Qed.

Lemma synthesis_and_recognition_do_not_interfere_witness :
  let h := exec (startListening ;; dispatchAll [OnStart; OnResult [["hi"]]]) (useSpeech true) in
  invocations 1 (trace (exec (speakThen "Hello" (Some 0) [UttStart; UttEnd]) h))
  = invocations 1 (trace h).
Proof.
  intros h.
  apply (synthesis_and_recognition_do_not_interfere
           "Hello" (Some 0) [UttStart; UttEnd] [] h).
  discriminate.
Defined.

(** ** The speech adapter: recognition *)

(** X3.  Once [stopListening] has been called, whatever events the
    recognizer still sends (its end, errors, late results), the hook does
    not start it again and the intent flag stays clear. *)
Theorem stopListening_ends_auto_restart :
  forall (h : Hook) (evs : list RecEvent),
    let later := exec (stopListening ;; dispatchAll evs) h in
    shouldListen later = false
    /\ starts (trace later) = starts (trace h).
Proof.
  intros h evs later. unfold later. rewrite exec_bind.
  fold (exec stopListening h).
  assert (Hstop : shouldListen (exec stopListening h) = false
                  /\ starts (trace (exec stopListening h)) = starts (trace h)).
  { destruct h as [l sp t sup sh has tr]. run_hook.
    destruct has; run_hook; (split; [reflexivity | count_starts]). }
  destruct Hstop as [Hoff Hst].
  destruct (dispatchAll_intent_clear evs _ Hoff) as [Hoff' Hst'].
  split; [exact Hoff' | now rewrite Hst'].
Qed.

(** X4.  While the intent flag is set and no permission error arrives, the
    hook answers every end event of the recognizer with exactly one call of
    [start], and the flag stays set. *)
Theorem each_end_restarts_once :
  forall (evs : list RecEvent) (h : Hook),
    hasRecognition h = true ->
    shouldListen h = true ->
    permissionDenied evs = false ->
    let h' := exec (dispatchAll evs) h in
    starts (trace h') = starts (trace h) + ends evs
    /\ shouldListen h' = true.
Proof.
  induction evs as [| ev evs IH]; intros h Hrec Hon Hperm h'.
  - unfold h'. cbn. split; [lia | exact Hon].
  - unfold h'. cbn [dispatchAll]. rewrite exec_bind. fold (exec (dispatch ev) h).
    cbn [permissionDenied existsb] in Hperm. apply orb_false_iff in Hperm as [Hev Hrest].
    assert (Hstep : hasRecognition (exec (dispatch ev) h) = true
                    /\ shouldListen (exec (dispatch ev) h) = true
                    /\ starts (trace (exec (dispatch ev) h))
                       = starts (trace h) + match ev with OnEnd => 1 | _ => 0 end).
    { destruct h as [l sp t sup sh has tr]; simpl in Hrec, Hon; subst has sh.
      destruct ev as [| results | | error]; run_hook.
      - repeat split. count_starts.
      - destruct (last_elem results) as [alts |]; [| run_hook; repeat split; lia].
        destruct (nth_error alts 0); [| run_hook; repeat split; lia].
        run_hook. repeat split. count_starts.
      - repeat split. count_starts.
      - unfold isPermissionError in Hev. rewrite Hev. run_hook.
        repeat split. count_starts. }
    destruct Hstep as (Hrec' & Hon' & Hst).
    destruct (IH _ Hrec' Hon' Hrest) as [Hst' Hon''].
    split; [| exact Hon''].
    rewrite Hst', Hst. destruct ev; cbn [ends]; lia.
Qed.

Lemma each_end_restarts_once_witness :
  let h := exec startListening (useSpeech true) in
  let evs := [OnStart; OnEnd; OnStart; OnError "no-speech"; OnEnd; OnStart] in
  starts (trace (exec (dispatchAll evs) h)) = 3
  /\ shouldListen (exec (dispatchAll evs) h) = true.
Proof.
  intros h evs.
  apply (each_end_restarts_once evs h); reflexivity.
Defined.

(** X5.  On a host without speech recognition no recognizer exists: however
    the component calls [startListening] and [stopListening], nothing is
    sent to a recognizer and [isListening] never changes, although
    [startListening] still clears the transcript and sets the intent
    flag. *)
Theorem unsupported_host_never_listens :
  forall (us : list Use) (h : Hook),
    hasRecognition h = false ->
    let h' := exec (performAll us) h in
    isListening h' = isListening h
    /\ recognizerCommands (trace h') = recognizerCommands (trace h)
    /\ (let started := exec startListening h' in
        transcript started = "" /\ shouldListen started = true
        /\ recognizerCommands (trace started) = recognizerCommands (trace h)).
Proof.
  assert (Hall : forall us h,
            hasRecognition h = false ->
            hasRecognition (exec (performAll us) h) = false
            /\ isListening (exec (performAll us) h) = isListening h
            /\ recognizerCommands (trace (exec (performAll us) h))
               = recognizerCommands (trace h)).
  { induction us as [| u us IH]; intros h Hno.
    - now repeat split.
    - cbn [performAll]. rewrite exec_bind. fold (exec (perform u) h).
      assert (Hstep : hasRecognition (exec (perform u) h) = false
                      /\ isListening (exec (perform u) h) = isListening h
                      /\ recognizerCommands (trace (exec (perform u) h))
                         = recognizerCommands (trace h)).
      { destruct h as [l sp t sup sh has tr]; simpl in Hno; subst has.
        destruct u as [| | ev]; unfold perform; run_hook;
          repeat split; unfold recognizerCommands; rewrite ?filter_app; simpl;
          now rewrite ?app_nil_r. }
      destruct Hstep as (Hno' & Hl & Hc).
      destruct (IH _ Hno') as (Hno'' & Hl' & Hc').
      repeat split; congruence. }
  intros us h Hno h'.
  destruct (Hall us h Hno) as (Hno' & Hl & Hc).
  split; [exact Hl |]. split; [exact Hc |].
  fold h' in Hno', Hc. cbv zeta.
  destruct h' as [l sp t sup sh has tr]; simpl in Hno'; subst has.
  run_hook. repeat split.
  rewrite <- Hc. unfold recognizerCommands. rewrite !filter_app; simpl.
  now rewrite !app_nil_r.
Qed.

Lemma unsupported_host_never_listens_witness :
  let h' := exec (performAll [CallStartListening; Event OnStart; CallStopListening;
                              CallStartListening]) (useSpeech false) in
  isListening h' = false /\ recognizerCommands (trace h') = [].
Proof.
  intros h'.
  destruct (unsupported_host_never_listens
              [CallStartListening; Event OnStart; CallStopListening; CallStartListening]
              (useSpeech false) eq_refl) as (Hl & Hc & _).
  split; [exact Hl | exact Hc].
Defined.

(** X6.  From [startListening] on, the transcript is the text of the
    latest result event that carries one, and the empty string as long as
    there is none: start, end and error events and the restarts never
    change it. *)
Theorem transcript_is_latest_result :
  forall (evs : list RecEvent) (h : Hook),
    hasRecognition h = true ->
    transcript (exec (dispatchAll evs) h) = latestText evs (transcript h)
    /\ transcript (exec (startListening ;; dispatchAll evs) h) = latestText evs "".
Proof.
  assert (Hall : forall evs h,
            hasRecognition h = true ->
            transcript (exec (dispatchAll evs) h) = latestText evs (transcript h)).
  { induction evs as [| ev evs IH]; intros h Hrec.
    - reflexivity.
    - cbn [dispatchAll]. rewrite exec_bind. fold (exec (dispatch ev) h).
      assert (Hstep : hasRecognition (exec (dispatch ev) h) = true
                      /\ transcript (exec (dispatch ev) h)
                         = match ev with
                           | OnResult results =>
                               match resultText results with
                               | Some t => t
                               | None => transcript h
                               end
                           | _ => transcript h
                           end).
      { destruct h as [l sp t sup sh has tr]; simpl in Hrec; subst has.
        destruct ev as [| results | | error]; unfold resultText; run_hook.
        - now split.
        - destruct (last_elem results) as [alts |]; [| now split].
          destruct (nth_error alts 0); now split.
        - destruct sh; now split.
        - destruct (String.eqb error "not-allowed" || String.eqb error "service-not-allowed");
            now split. }
      destruct Hstep as [Hrec' Ht].
      rewrite (IH _ Hrec'), Ht. now destruct ev. }
  intros evs h Hrec. split; [now apply Hall |].
  rewrite exec_bind. fold (exec startListening h).
  rewrite Hall.
  - f_equal. destruct h as [l sp t sup sh has tr]. run_hook. now destruct has.
  - destruct h as [l sp t sup sh has tr]; simpl in Hrec; subst has. reflexivity.
Qed.

Lemma transcript_is_latest_result_witness :
  transcript (exec (startListening ;;
                    dispatchAll [OnStart; OnResult [["I"]]; OnResult [["I like"; "I bike"]];
                                 OnEnd; OnStart; OnResult []; OnError "no-speech"])
                   (useSpeech true)) = "I like".
Proof.
  apply (transcript_is_latest_result
           [OnStart; OnResult [["I"]]; OnResult [["I like"; "I bike"]];
            OnEnd; OnStart; OnResult []; OnError "no-speech"] (useSpeech true)).
  reflexivity.
Defined.

(** ** The scripted client: how a text is matched *)

Lemma prefix_app (k b : string) : prefix k (k ++ b) = true.
Proof.
  induction k as [| c k IH]; simpl.
  - now destruct b.
  - destruct (ascii_dec c c) as [_ | Hneq]; [exact IH | congruence].
Qed.

Lemma prefix_split (k s : string) : prefix k s = true -> exists b, s = k ++ b.
Proof.
  revert s. induction k as [| c k IH]; intros s H.
  - exists s. reflexivity.
  - destruct s as [| c' s]; simpl in H; [discriminate |].
    destruct (ascii_dec c c') as [<- | _]; [| discriminate].
    destruct (IH s H) as [b ->]. exists b. reflexivity.
Qed.

Lemma includes_cons (k : string) (c : ascii) (s : string) :
  includes k (String c s) = prefix k (String c s) || includes k s.
Proof. reflexivity. Qed.

Lemma includes_empty (k : string) : includes k "" = prefix k "" || false.
Proof. reflexivity. Qed.

Lemma includes_prefix (k s : string) : prefix k s = true -> includes k s = true.
Proof.
  intros H. destruct s; [rewrite includes_empty | rewrite includes_cons]; now rewrite H.
Qed.

(** [includes] is containment as a substring. *)
Lemma includes_iff (k s : string) :
  includes k s = true <-> exists a b, s = a ++ k ++ b.
Proof.
  split.
  - induction s as [| c s IH]; intros H.
    + rewrite includes_empty, orb_false_r in H.
      destruct (prefix_split _ _ H) as [b Hb]. exists "", b. exact Hb.
    + rewrite includes_cons in H. apply orb_true_iff in H as [H | H].
      * destruct (prefix_split _ _ H) as [b Hb]. exists "", b. exact Hb.
      * destruct (IH H) as (a & b & ->). exists (String c a), b. reflexivity.
  - intros (a & b & ->). induction a as [| c a IH].
    + cbn [append]. apply includes_prefix, prefix_app.
    + cbn [append]. rewrite includes_cons, IH. apply orb_true_r.
Qed.

(** X7.  The scripted client reads nothing but the content of the last
    turn: the turns before it and the role of the last turn (user or not)
    make no difference to the reply. *)
Theorem mockContinueConversation_reads_last_content_only :
  forall (pre pre' : list ChatMessage) (m : ChatMessage) (r : Role),
    mockContinueConversation (pre ++ [m])
    = mockContinueConversation (pre' ++ [mkMsg r (content m)]).
Proof.
  intros pre pre' m r. unfold mockContinueConversation.
  now rewrite !last_elem_snoc.
Qed.

(** X8.  The scripted client answers with the first row (the volcano reply
    and the color #ffe5e5) exactly when the lower-cased text of the last
    turn contains "red", "fire" or "hot" somewhere, also inside a longer
    word. *)
Theorem scripted_first_row_iff :
  forall (pre : list ChatMessage) (r : Role) (t : string),
    mockContinueConversation (pre ++ [mkMsg r (Text t)])
    = Resolved (mkReply "Oh wow! Red like a volcano! Is it hot?" (Some (mkTool "#ffe5e5")))
    <-> exists a b k, In k ["red"; "fire"; "hot"] /\ toLowerCase t = a ++ k ++ b.
Proof.
  intros pre r t. unfold mockContinueConversation. rewrite last_elem_snoc.
  unfold userTextOf; cbn [content]. set (u := toLowerCase t). split.
  - intros H.
    assert (Hany : includes "red" u || includes "fire" u || includes "hot" u = true).
    { unfold scriptedReply in H.
      destruct (includes "red" u || includes "fire" u || includes "hot" u);
        [reflexivity |].
      repeat match type of H with
             | context [if ?c then _ else _] => destruct c
             end; discriminate H. }
    apply orb_true_iff in Hany as [Hany | Hhot];
      [apply orb_true_iff in Hany as [Hred | Hfire] |].
    + apply includes_iff in Hred as (a & b & E). exists a, b, "red". simpl; auto.
    + apply includes_iff in Hfire as (a & b & E). exists a, b, "fire". simpl; auto.
    + apply includes_iff in Hhot as (a & b & E). exists a, b, "hot". simpl; auto.
  - intros (a & b & k & Hk & E).
    assert (Hinc : includes k u = true) by (apply includes_iff; eauto).
    unfold scriptedReply.
    destruct Hk as [<- | [<- | [<- | []]]]; rewrite Hinc;
      rewrite ?orb_true_r; reflexivity.
Qed.

Lemma scripted_first_row_iff_witness :
  mockContinueConversation [mkMsg user (Text "I'm BORED")]
  = Resolved (mkReply "Oh wow! Red like a volcano! Is it hot?" (Some (mkTool "#ffe5e5"))).
Proof.
  apply (scripted_first_row_iff [] user "I'm BORED").
  exists "i'm bo", "", "red". split; [simpl; auto | reflexivity].
Defined.

Lemma scriptedReply_text_nonempty (userText : string) :
  text (scriptedReply userText) <> "".
Proof.
  unfold scriptedReply.
  repeat match goal with
         | |- context [if ?c then _ else _] => destruct c
         end; discriminate.
Qed.

(** ** The live client *)

Lemma contentOr_nonempty (c : option string) (dflt : string) :
  dflt <> "" -> Client.contentOr c dflt <> "".
Proof.
  intros Hd. destruct c as [s |]; simpl; [| exact Hd].
  unfold or_else. destruct (String.eqb_spec s ""); assumption.
Qed.

(** X9.  A request of the live client resolves exactly when the client has
    been initialised, the remote call resolves, and the completion has at
    least one choice; nothing else rejects it, a tool call whose arguments
    do not parse included.  The request carries the model name, the system
    prompt followed by the image turn or by the history, and the one tool
    [change_background]. *)
Theorem live_request_resolves_iff :
  forall (JSON_parse : string -> Outcome Client.Json) (openai : option Client.Handle)
         (image : string) (history : list ChatMessage),
    ((exists r, Client.analyzeImageAndStart JSON_parse openai image = Resolved r)
     <-> exists create message rest,
           openai = Some create
           /\ create (Client.mkRequest "gpt-4o"
                        [mkMsg system (Text Client.SYSTEM_PROMPT);
                         mkMsg user
                           (Parts [TextPart "What is in this image? Start a conversation with a child about it. Say hello and ask a fun question!";
                                   ImageUrlPart image])]
                        [Client.change_background])
              = Resolved (Client.mkCompletion (message :: rest)))
    /\ ((exists r, Client.continueConversation JSON_parse openai history = Resolved r)
        <-> exists create message rest,
              openai = Some create
              /\ create (Client.mkRequest "gpt-4o"
                           (mkMsg system (Text Client.SYSTEM_PROMPT) :: history)
                           [Client.change_background])
                 = Resolved (Client.mkCompletion (message :: rest))).
Proof.
  intros parse openai image history. split; split.
  - intros [r H]. unfold Client.analyzeImageAndStart in H.
    destruct openai as [create |]; [| discriminate].
    match type of H with
    | context [create ?req] => destruct (create req) as [[cs] | e] eqn:E
    end; [| discriminate].
    destruct cs as [| message rest]; [discriminate |].
    exists create, message, rest. split; [reflexivity | exact E].
  - intros (create & message & rest & -> & E).
    unfold Client.analyzeImageAndStart. rewrite E. eexists. reflexivity.
  - intros [r H]. unfold Client.continueConversation in H.
    destruct openai as [create |]; [| discriminate].
    match type of H with
    | context [create ?req] => destruct (create req) as [[cs] | e] eqn:E
    end; [| discriminate].
    destruct cs as [| message rest]; [discriminate |].
    exists create, message, rest. split; [reflexivity | exact E].
  - intros (create & message & rest & -> & E).
    unfold Client.continueConversation. rewrite E. eexists. reflexivity.
Qed.

Lemma live_request_resolves_iff_witness :
  let create : Client.Handle :=
    fun _ => Resolved (Client.mkCompletion
                         [Client.mkMessage (Some "Splash!")
                            (Some [Client.mkCall "change_background" "not json"])]) in
  let parse := fun _ : string => @Rejected Client.Json (mkError "Unexpected token") in
  exists r,
    Client.continueConversation parse (Some create) [mkMsg user (Text "I like blue")]
    = Resolved r.
Proof.
  intros create parse.
  apply (live_request_resolves_iff parse (Some create) "" [mkMsg user (Text "I like blue")]).
  exists create. eexists. eexists. split; reflexivity.
Defined.

(** X10.  A live request fails in three ways only, each with its own
    error: "OpenAI not initialized" before [initializeOpenAI] has run, the
    error of the remote call when that call rejects, and a [TypeError] when
    the completion has no choice. *)
Theorem live_request_failures :
  forall (JSON_parse : string -> Outcome Client.Json) (openai : option Client.Handle)
         (history : list ChatMessage) (e : Error),
    Client.continueConversation JSON_parse openai history = Rejected e ->
    (openai = None /\ message e = "OpenAI not initialized")
    \/ (exists create req, openai = Some create /\ create req = Rejected e)
    \/ (exists create req,
          openai = Some create
          /\ create req = Resolved (Client.mkCompletion [])
          /\ e = TypeError_undefined "message").
Proof.
  intros parse openai history e H. unfold Client.continueConversation in H.
  destruct openai as [create |].
  - match type of H with
    | context [create ?req] => destruct (create req) as [[cs] | e'] eqn:E
    end.
    + destruct cs as [| m rest]; [| discriminate].
      right; right. injection H as <-. eauto.
    + right; left. injection H as <-. eauto.
  - left. injection H as <-. split; reflexivity.
Qed.

Lemma live_request_failures_witness :
  (None = @None Client.Handle /\ message (mkError "OpenAI not initialized")
                                = "OpenAI not initialized")
  \/ (exists create req,
        @None Client.Handle = Some create
        /\ create req = Rejected (mkError "OpenAI not initialized"))
  \/ (exists create req,
        @None Client.Handle = Some create
        /\ create req = Resolved (Client.mkCompletion [])
        /\ mkError "OpenAI not initialized" = TypeError_undefined "message").
Proof.
  apply (live_request_failures (fun _ => Resolved Client.JNull) None
           [mkMsg user (Text "I like blue")] (mkError "OpenAI not initialized")).
  reflexivity.
Defined.

(** X11.  The text of a live reply is never empty: a completion whose
    content is null or empty is replaced by the fixed greeting (first
    request) or by the fixed follow-up (later requests); and the first turn
    handed back carries the image that was sent. *)
Theorem live_reply_text_never_empty :
  forall (JSON_parse : string -> Outcome Client.Json) (openai : option Client.Handle)
         (image : string) (history : list ChatMessage),
    (forall r, Client.analyzeImageAndStart JSON_parse openai image = Resolved r ->
               Client.start_text r <> ""
               /\ exists prompt,
                    Client.initialUserMessage r
                    = mkMsg user (Parts [TextPart prompt; ImageUrlPart image]))
    /\ (forall r, Client.continueConversation JSON_parse openai history = Resolved r ->
                  Client.text r <> "").
Proof.
  intros parse openai image history. split; intros r H.
  - unfold Client.analyzeImageAndStart in H.
    destruct openai as [create |]; [| discriminate].
    match type of H with
    | context [create ?req] => destruct (create req) as [[cs] | e] eqn:E
    end; [| discriminate].
    destruct cs as [| m rest]; [discriminate |].
    cbn in H. injection H as <-. cbn. split.
    + apply contentOr_nonempty. discriminate.
    + eexists. reflexivity.
  - unfold Client.continueConversation in H.
    destruct openai as [create |]; [| discriminate].
    match type of H with
    | context [create ?req] => destruct (create req) as [[cs] | e] eqn:E
    end; [| discriminate].
    destruct cs as [| m rest]; [discriminate |].
    cbn in H. injection H as <-. cbn.
    apply contentOr_nonempty. discriminate.
Qed.

Lemma live_reply_text_never_empty_witness :
  let create : Client.Handle :=
    fun _ => Resolved (Client.mkCompletion [Client.mkMessage (Some "") None]) in
  let parse := fun _ : string => Resolved Client.JNull in
  let r := Client.mkReply "That's interesting! Tell me more." None in
  Client.continueConversation parse (Some create) [mkMsg user (Text "I like blue")]
  = Resolved r
  /\ Client.text r <> "".
Proof.
  intros create parse r. split; [reflexivity |].
  apply (live_reply_text_never_empty parse (Some create) "data:image/png;base64,AAAA"
           [mkMsg user (Text "I like blue")]).
  reflexivity.
Defined.

(** X12.  The reply of the live client carries a tool call exactly when
    the first tool call of the message (the others are not read) is named
    [change_background] and its arguments parse to a value other than null;
    the color is then the [color] property of that value, absent when the
    value is not an object or has no such property.  Arguments that do not
    parse are dropped. *)
Theorem readToolCall_iff :
  forall (JSON_parse : string -> Outcome Client.Json) (message : Client.Message)
         (tc : Client.ToolCall),
    Client.readToolCall JSON_parse message = Some tc
    <-> exists call rest args,
          Client.tool_calls message = Some (call :: rest)
          /\ Client.fn_name call = "change_background"
          /\ JSON_parse (Client.fn_arguments call) = Resolved args
          /\ args <> Client.JNull
          /\ Client.color tc = match args with
                               | Client.JObject fields => Client.lookup "color" fields
                               | _ => None
                               end.
Proof.
  intros parse message [c]. unfold Client.readToolCall. split.
  - intros H.
    destruct (Client.tool_calls message) as [[| call rest] |]; try discriminate.
    destruct (String.eqb_spec (Client.fn_name call) "change_background") as [Hname |];
      [| discriminate].
    destruct (parse (Client.fn_arguments call)) as [args | e] eqn:E; [| discriminate].
    exists call, rest, args.
    destruct args; cbn in H; try discriminate; injection H as <-;
      repeat split; try assumption; discriminate.
  - intros (call & rest & args & -> & Hname & E & Hnull & Hc).
    rewrite Hname, E. cbn in Hc. subst c.
    destruct args; cbn; try reflexivity. congruence.
Qed.

Lemma readToolCall_iff_witness :
  let parse := fun arguments : string =>
    if String.eqb arguments "{}" then Resolved (Client.JObject [])
    else @Rejected Client.Json (mkError "Unexpected token") in
  let call := Client.mkCall "change_background" "{}" in
  Client.readToolCall parse
    (Client.mkMessage None (Some [call; Client.mkCall "other" "{"]))
  = Some (Client.mkTool None).
Proof.
  intros parse call.
  apply (readToolCall_iff parse
           (Client.mkMessage None (Some [call; Client.mkCall "other" "{"]))
           (Client.mkTool None)).
  exists call, [Client.mkCall "other" "{"], (Client.JObject []).
  repeat split. discriminate.
Defined.

(** ** The controller *)

(** [speak] changes the synthesis half of the hook only. *)
Lemma speak_hook_frame (t : string) (cb : option Callback) (h : Hook) :
  let h' := snd (Speech.speak t cb h) in
  shouldListen h' = shouldListen h
  /\ isListening h' = isListening h
  /\ transcript h' = transcript h
  /\ hasRecognition h' = hasRecognition h
  /\ recognizerCommands (trace h') = recognizerCommands (trace h).
Proof.
  destruct h as [l sp tx sup sh has tr]. unfold Speech.speak.
  destruct (String.eqb t ""); run_speak; repeat split.
  unfold recognizerCommands. rewrite !filter_app; simpl. now rewrite !app_nil_r.
Qed.

Lemma speak_nonempty (t : string) (cb : option Callback) (h : Hook) :
  t <> "" ->
  Speech.speak t cb h
  = (Some (Speech.mkCall (Armed (safetyDelay t)) cb),
     mkHook (isListening h) (isSpeaking h) (transcript h) (isSupported h)
            (shouldListen h) (hasRecognition h)
            (trace h ++ [SynthCancel; SetTimeout (safetyDelay t); SynthSpeak t])).
Proof.
  intros Hne. apply String.eqb_neq in Hne. unfold Speech.speak. rewrite Hne.
  destruct h as [l sp tx sup sh has tr]. run_speak. now rewrite <- !app_assoc.
Qed.

(** X13.  In demo mode the controller is offline and cannot fail: whatever
    the network would answer, [startConversation] and [handleUserResponse]
    give the same state, which is SPEAKING with an utterance in flight and
    its safety timer armed; the greeting sets the background to #e3fded. *)
Theorem demo_mode_is_offline_and_never_fails :
  forall (fetch1 fetch2 : string -> Outcome string)
         (analyze1 analyze2 : string -> Outcome StartReply)
         (continue1 continue2 : list ChatMessage -> Outcome Reply)
         (forceDemo : bool) (userText : string) (s : App.State),
    (forceDemo || App.isDemoMode s = true ->
     App.hasKey s || forceDemo = true ->
     let s' := App.startConversation fetch1 analyze1 forceDemo s in
     s' = App.startConversation fetch2 analyze2 forceDemo s
     /\ App.appState s' = App.SPEAKING
     /\ App.isDemoMode s' = true
     /\ App.backgroundColor s' = "#e3fded"
     /\ exists ms, App.utterance s' = Some (Speech.mkCall (Armed ms) (Some App.onSpeechEnd)))
    /\ (App.isDemoMode s = true ->
        let s' := App.handleUserResponse continue1 userText s in
        s' = App.handleUserResponse continue2 userText s
        /\ App.appState s' = App.SPEAKING
        /\ exists ms, App.utterance s' = Some (Speech.mkCall (Armed ms) (Some App.onSpeechEnd))).
Proof.
  intros fetch1 fetch2 analyze1 analyze2 continue1 continue2 forceDemo userText s.
  split.
  - intros Hdemo Hguard s'. unfold s', App.startConversation, App.requestAnalysis.
    replace (negb (App.hasKey s) && negb forceDemo) with false
      by (destruct (App.hasKey s), forceDemo; simpl in *; congruence).
    rewrite Hdemo, andb_false_r. cbn.
    repeat split.
    + destruct forceDemo; [reflexivity |]. simpl in Hdemo. exact Hdemo.
    + eexists. reflexivity.
  - intros Hdemo s'. unfold s', App.handleUserResponse. rewrite Hdemo.
    unfold mockContinueConversation. rewrite last_elem_snoc.
    set (r := scriptedReply (userTextOf (mkMsg user (Text userText)))).
    pose proof (scriptedReply_text_nonempty (userTextOf (mkMsg user (Text userText))))
      as Hne.
    fold r in Hne.
    split; [reflexivity |]. split.
    + now destruct (toolCall r).
    + unfold App.speak. rewrite speak_nonempty by exact Hne.
      cbn. eexists. reflexivity.
Qed.

Lemma demo_mode_is_offline_and_never_fails_witness :
  let offline := fun _ : string => @Rejected string (mkError "Failed to fetch") in
  let failing := fun _ : string => @Rejected StartReply (mkError "Connection error.") in
  let failing' := fun _ : list ChatMessage => @Rejected Reply (mkError "Connection error.") in
  let s1 := App.startConversation offline failing true (App.initial true) in
  let s2 := App.handleUserResponse failing' "Can he fly?" (App.handleAIBlueSpeechEnd s1) in
  App.appState s1 = App.SPEAKING /\ App.appState s2 = App.SPEAKING.
Proof.
  intros offline failing failing' s1 s2. split.
  - apply (demo_mode_is_offline_and_never_fails offline offline failing failing
             failing' failing' true "Can he fly?" (App.initial true));
      reflexivity.
  - apply (demo_mode_is_offline_and_never_fails offline offline failing failing
             failing' failing' true "Can he fly?" (App.handleAIBlueSpeechEnd s1)).
    reflexivity.
Defined.

(** What the two requests of the controller leave alone. *)
Lemma startConversation_frame
    (fetch : string -> Outcome string) (analyze : string -> Outcome StartReply)
    (forceDemo : bool) (s : App.State) :
  let s' := App.startConversation fetch analyze forceDemo s in
  App.hasKey s' = App.hasKey s
  /\ (App.isDemoMode s = true -> App.isDemoMode s' = true)
  /\ (s' = s \/ App.appState s' = App.SPEAKING \/ App.appState s' = App.ERROR)
  /\ shouldListen (App.speech s') = shouldListen (App.speech s)
  /\ isListening (App.speech s') = isListening (App.speech s)
  /\ transcript (App.speech s') = transcript (App.speech s)
  /\ recognizerCommands (trace (App.speech s')) = recognizerCommands (trace (App.speech s)).
Proof.
  unfold App.startConversation.
  destruct (negb (App.hasKey s) && negb forceDemo).
  { cbv zeta. repeat split; auto. }
  destruct (App.requestAnalysis fetch analyze (forceDemo || App.isDemoMode s)
              (App.imageSrc s)) as [r | e].
  - cbv zeta. unfold App.speak.
    match goal with
    | |- context [Speech.speak ?t ?cb ?h] =>
        pose proof (speak_hook_frame t cb h) as Hf; cbv zeta in Hf
    end.
    destruct (start_toolCall r); cbn in Hf |- *;
      destruct Hf as (H1 & H2 & H3 & _ & H5);
      (repeat split; auto); destruct forceDemo; auto.
  - cbv zeta. cbn. repeat split; auto; destruct forceDemo; auto.
Qed.

Lemma handleUserResponse_frame
    (continue : list ChatMessage -> Outcome Reply) (userText : string) (s : App.State) :
  let s' := App.handleUserResponse continue userText s in
  App.hasKey s' = App.hasKey s
  /\ App.isDemoMode s' = App.isDemoMode s
  /\ (App.appState s' = App.SPEAKING \/ App.appState s' = App.ERROR)
  /\ shouldListen (App.speech s') = shouldListen (App.speech s)
  /\ isListening (App.speech s') = isListening (App.speech s)
  /\ transcript (App.speech s') = transcript (App.speech s)
  /\ recognizerCommands (trace (App.speech s')) = recognizerCommands (trace (App.speech s)).
Proof.
  unfold App.handleUserResponse.
  destruct (if App.isDemoMode s
            then mockContinueConversation (App.history s ++ [mkMsg user (Text userText)])%list
            else continue (App.history s ++ [mkMsg user (Text userText)])%list) as [r | e].
  - cbv zeta. unfold App.speak.
    match goal with
    | |- context [Speech.speak ?t ?cb ?h] =>
        pose proof (speak_hook_frame t cb h) as Hf; cbv zeta in Hf
    end.
    destruct (toolCall r); cbn in Hf |- *;
      destruct Hf as (H1 & H2 & H3 & _ & H5); repeat split; auto.
  - cbv zeta. cbn. repeat split; auto.
Qed.

Lemma userSpeechEndEffect_cases
    (continue : list ChatMessage -> Outcome Reply) (s : App.State) :
  App.userSpeechEndEffect continue s = s
  \/ App.userSpeechEndEffect continue s
     = App.handleUserResponse continue (transcript (App.speech s)) s.
Proof.
  unfold App.userSpeechEndEffect.
  destruct (negb (isListening (App.speech s)) && App.isLISTENING (App.appState s));
    [| now left].
  destruct (0 <? String.length (trim (transcript (App.speech s))))%nat; auto.
Qed.

Lemma run_invariant
    (fetch : string -> Outcome string) (analyze : string -> Outcome StartReply)
    (continue : list ChatMessage -> Outcome Reply) (P : Session.State -> Prop) :
  (forall a s, P s -> P (Session.step fetch analyze continue a s)) ->
  forall actions s, P s -> P (Session.run fetch analyze continue actions s).
Proof.
  intros Hstep actions. unfold Session.run.
  induction actions as [| a actions IH]; intros s Hs; simpl; auto.
Qed.

(** X14.  Nothing ever leaves demo mode: once [isDemoMode] is set, it stays
    set through every handler of the component, saving a valid key
    included. *)
Theorem demo_mode_is_never_left :
  forall (fetch : string -> Outcome string) (analyze : string -> Outcome StartReply)
         (continue : list ChatMessage -> Outcome Reply)
         (actions : list Session.Action) (s : Session.State),
    App.isDemoMode (Session.app s) = true ->
    App.isDemoMode (Session.app (Session.run fetch analyze continue actions s)) = true.
Proof.
  intros fetch analyze continue.
  apply (run_invariant fetch analyze continue
           (fun s => App.isDemoMode (Session.app s) = true)).
  intros a s Hs. unfold Session.step.
  assert (Hhandle : App.isDemoMode (Session.app (Session.handle fetch analyze continue a s)) = true).
  { destruct a; cbn [Session.handle Session.onApp Session.app Session.setApiKey
                     Session.handleResetKey];
      try exact Hs.
    - unfold Session.handleSaveKey.
      destruct (startsWith "sk-" (trim (Session.apiKey s))); exact Hs.
    - now apply startConversation_frame.
    - now apply startConversation_frame.
    - destruct (handleUserResponse_frame continue userText (Session.app s))
        as (_ & H & _).
      congruence.
    - unfold App.handleMicClick.
      destruct (App.appState (Session.app s)); try exact Hs;
        destruct (isListening (App.speech (Session.app s))); exact Hs. }
  cbn [Session.onApp Session.app].
  destruct (userSpeechEndEffect_cases continue
              (Session.app (Session.handle fetch analyze continue a s))) as [-> | ->];
    [exact Hhandle |].
  destruct (handleUserResponse_frame continue
              (transcript (App.speech (Session.app (Session.handle fetch analyze continue a s))))
              (Session.app (Session.handle fetch analyze continue a s))) as (_ & H & _).
  congruence.
Qed.

Lemma demo_mode_is_never_left_witness :
  let fetch := fun src : string => Resolved src in
  let analyze := fun _ : string => @Rejected StartReply (mkError "Connection error.") in
  let continue := fun _ : list ChatMessage => @Rejected Reply (mkError "Connection error.") in
  let s := Session.run fetch analyze continue [Session.Start true]
             (Session.mount None true) in
  App.isDemoMode
    (Session.app
       (Session.run fetch analyze continue
          [Session.TypeApiKey "sk-test"; Session.SaveKey; Session.UploadImage "data:,";
           Session.Start false] s)) = true.
Proof.
  intros fetch analyze continue s.
  apply (demo_mode_is_never_left fetch analyze continue
           [Session.TypeApiKey "sk-test"; Session.SaveKey; Session.UploadImage "data:,";
            Session.Start false] s).
  reflexivity.
Defined.

(** ** The component: the key *)

Lemma accepted_key_nonempty (key : string) :
  startsWith "sk-" (trim key) = true -> key <> "".
Proof. intros H ->. discriminate H. Qed.

Lemma truthy_nonempty (s : string) : truthy s = true -> s <> "".
Proof. unfold truthy. intros H ->. discriminate H. Qed.

Lemma nonempty_truthy (s : string) : s <> "" -> truthy s = true.
Proof. intros H. unfold truthy. apply String.eqb_neq in H. now rewrite H. Qed.

Lemma keyHeld_onApp (f : App.State -> App.State) (s : Session.State) :
  (App.hasKey (f (Session.app s)) = App.hasKey (Session.app s)) ->
  Session.keyHeld s -> Session.keyHeld (Session.onApp f s).
Proof. unfold Session.keyHeld, Session.onApp; cbn. intros -> H. exact H. Qed.

Lemma handleMicClick_hasKey (s : App.State) :
  App.hasKey (App.handleMicClick s) = App.hasKey s.
Proof.
  unfold App.handleMicClick.
  destruct (App.appState s); try reflexivity;
    destruct (isListening (App.speech s)); reflexivity.
Qed.

Lemma userSpeechEndEffect_hasKey
    (continue : list ChatMessage -> Outcome Reply) (s : App.State) :
  App.hasKey (App.userSpeechEndEffect continue s) = App.hasKey s.
Proof.
  destruct (userSpeechEndEffect_cases continue s) as [-> | ->]; [reflexivity |].
  apply handleUserResponse_frame.
Qed.

(** X15.  In every state the component reaches after mounting, whatever
    local storage held, a key that is held ([hasKey]) is the key in local
    storage, is the key the client was built with, and is not empty. *)
Theorem held_key_is_stored_and_in_use :
  forall (fetch : string -> Outcome string) (analyze : string -> Outcome StartReply)
         (continue : list ChatMessage -> Outcome Reply)
         (stored : option string) (hostHasRecognition : bool)
         (actions : list Session.Action),
    Session.keyHeld
      (Session.run fetch analyze continue actions
         (Session.mount stored hostHasRecognition)).
Proof.
  intros fetch analyze continue stored host actions.
  apply run_invariant.
  - intros a s Hs. unfold Session.step.
    apply keyHeld_onApp; [apply userSpeechEndEffect_hasKey |].
    destruct a; cbn [Session.handle];
      try (apply keyHeld_onApp; [reflexivity | exact Hs]).
    + exact Hs.
    + unfold Session.handleSaveKey.
      destruct (startsWith "sk-" (trim (Session.apiKey s))) eqn:E; [| exact Hs].
      intros _. exists (Session.apiKey s).
      split; [now apply accepted_key_nonempty | split; reflexivity].
    + intros H. discriminate H.
    + apply keyHeld_onApp; [apply startConversation_frame | exact Hs].
    + apply keyHeld_onApp; [| exact Hs].
      destruct (startConversation_frame fetch analyze true
                  (App.setAppState App.IDLE (Session.app s))) as (H & _).
      exact H.
    + apply keyHeld_onApp; [apply handleUserResponse_frame | exact Hs].
    + apply keyHeld_onApp; [apply handleMicClick_hasKey | exact Hs].
  - unfold Session.mount, Session.loadKeyEffect. cbn [Session.storedKey].
    destruct stored as [key |]; [| intros H; discriminate H].
    destruct (truthy key) eqn:E; [| intros H; discriminate H].
    intros _. exists key. split; [now apply truthy_nonempty | split; reflexivity].
Qed.

Lemma held_key_is_stored_and_in_use_witness :
  let fetch := fun src : string => Resolved src in
  let analyze := fun _ : string => @Rejected StartReply (mkError "Connection error.") in
  let continue := fun _ : list ChatMessage => @Rejected Reply (mkError "Connection error.") in
  let s := Session.run fetch analyze continue
             [Session.TypeApiKey "sk-test"; Session.SaveKey; Session.Start false;
              Session.TryAgain]
             (Session.mount (Some "") true) in
  exists key, key <> "" /\ Session.storedKey s = Some key /\ Session.openaiKey s = Some key.
Proof.
  intros fetch analyze continue s.
  apply (held_key_is_stored_and_in_use fetch analyze continue (Some "") true
           [Session.TypeApiKey "sk-test"; Session.SaveKey; Session.Start false;
            Session.TryAgain]).
  reflexivity.
Defined.

(** X16.  [handleSaveKey] accepts the typed key exactly when, with the
    white space around it removed, it starts with "sk-".  An accepted key is
    stored and handed to [initializeOpenAI] as it was typed, not trimmed;
    [hasKey] is set, the input and everything else are left as they were,
    and mounting the component again on that storage restores the key: it
    is held, shown and used for the client.  A refused key changes nothing
    (the input included) but for the alert. *)
Theorem saved_key_survives_reload :
  forall (s : Session.State) (hostHasRecognition : bool),
    (startsWith "sk-" (trim (Session.apiKey s)) = true ->
     let saved := Session.handleSaveKey s in
     let reloaded := Session.mount (Session.storedKey saved) hostHasRecognition in
     Session.storedKey saved = Some (Session.apiKey s)
     /\ Session.openaiKey saved = Some (Session.apiKey s)
     /\ Session.apiKey saved = Session.apiKey s
     /\ Session.app saved = App.setHasKey true (Session.app s)
     /\ App.hasKey (Session.app saved) = true
     /\ Session.alerts saved = Session.alerts s
     /\ App.hasKey (Session.app reloaded) = true
     /\ Session.apiKey reloaded = Session.apiKey s
     /\ Session.storedKey reloaded = Some (Session.apiKey s)
     /\ Session.openaiKey reloaded = Some (Session.apiKey s))
    /\ (startsWith "sk-" (trim (Session.apiKey s)) = false ->
        let refused := Session.handleSaveKey s in
        Session.app refused = Session.app s
        /\ Session.apiKey refused = Session.apiKey s
        /\ Session.storedKey refused = Session.storedKey s
        /\ Session.openaiKey refused = Session.openaiKey s
        /\ Session.alerts refused
           = (Session.alerts s
              ++ ["Please enter a valid OpenAI API Key starting with sk-"])%list).
Proof.
  intros s host. split; intros Hkey; unfold Session.handleSaveKey; rewrite Hkey.
  - cbn. unfold Session.mount, Session.loadKeyEffect. cbn.
    rewrite (nonempty_truthy _ (accepted_key_nonempty _ Hkey)).
    repeat split.
  - repeat split.
Qed.

Lemma saved_key_survives_reload_witness :
  let typed := Session.setApiKey "  sk-test " (Session.mount None true) in
  let refused := Session.handleSaveKey
                   (Session.setApiKey "my key" (Session.mount None true)) in
  (Session.storedKey (Session.handleSaveKey typed) = Some "  sk-test "
   /\ Session.openaiKey (Session.handleSaveKey typed) = Some "  sk-test ")
  /\ (Session.apiKey refused = "my key" /\ Session.storedKey refused = None).
Proof.
  intros typed refused. split.
  - destruct (saved_key_survives_reload typed true) as [Haccepted _].
    destruct (Haccepted eq_refl) as (Hstored & Hused & _).
    split; [exact Hstored | exact Hused].
  - destruct (saved_key_survives_reload
                (Session.setApiKey "my key" (Session.mount None true)) true)
      as [_ Hrefused].
    destruct (Hrefused eq_refl) as (_ & Hinput & Hstored & _).
    split; [exact Hinput | exact Hstored].
Defined.

(** Without a key, and short of saving one, a step of the component leaves
    the component without a key and the client as it was built. *)
Lemma step_without_key
    (fetch : string -> Outcome string) (analyze : string -> Outcome StartReply)
    (continue : list ChatMessage -> Outcome Reply)
    (a : Session.Action) (s : Session.State) :
  a <> Session.SaveKey ->
  App.hasKey (Session.app s) = false ->
  Session.storedKey s = None ->
  let s' := Session.step fetch analyze continue a s in
  App.hasKey (Session.app s') = false
  /\ Session.storedKey s' = None
  /\ Session.openaiKey s' = Session.openaiKey s.
Proof.
  intros Hsave Hkey Hstored s'. unfold s', Session.step.
  cbn [Session.onApp Session.app Session.storedKey Session.openaiKey].
  rewrite userSpeechEndEffect_hasKey.
  destruct a; cbn [Session.handle Session.onApp Session.setApiKey Session.handleResetKey
                   Session.app Session.storedKey Session.openaiKey];
    try (repeat split; assumption).
  - congruence.
  - destruct (startConversation_frame fetch analyze forceDemo (Session.app s)) as (H & _).
    rewrite H. repeat split; assumption.
  - destruct (startConversation_frame fetch analyze true
                (App.setAppState App.IDLE (Session.app s))) as (H & _).
    rewrite H. repeat split; assumption.
  - destruct (handleUserResponse_frame continue userText (Session.app s)) as (H & _).
    rewrite H. repeat split; assumption.
  - rewrite handleMicClick_hasKey. repeat split; assumption.
Qed.

(** X17.  After [handleResetKey], and as long as no key is saved, no
    handler of the component brings a key back: through every sequence of
    the other handlers and events [hasKey] stays false and local storage
    stays without a key, so that a start that is not forced to the demo
    does nothing and mounting again finds no key; the client that
    [initializeOpenAI] had built is never taken down. *)
Theorem reset_key_holds_until_a_key_is_saved :
  forall (fetch : string -> Outcome string) (analyze : string -> Outcome StartReply)
         (continue : list ChatMessage -> Outcome Reply)
         (actions : list Session.Action) (s : Session.State)
         (hostHasRecognition : bool),
    Forall (fun a => a <> Session.SaveKey) actions ->
    let later := Session.run fetch analyze continue actions (Session.handleResetKey s) in
    App.hasKey (Session.app later) = false
    /\ Session.storedKey later = None
    /\ Session.openaiKey later = Session.openaiKey s
    /\ App.startConversation fetch analyze false (Session.app later) = Session.app later
    /\ App.hasKey (Session.app (Session.mount (Session.storedKey later) hostHasRecognition))
       = false.
Proof.
  intros fetch analyze continue actions s host Hforall later.
  assert (Hrun : forall actions st,
            Forall (fun a => a <> Session.SaveKey) actions ->
            App.hasKey (Session.app st) = false ->
            Session.storedKey st = None ->
            let st' := Session.run fetch analyze continue actions st in
            App.hasKey (Session.app st') = false
            /\ Session.storedKey st' = None
            /\ Session.openaiKey st' = Session.openaiKey st).
  { clear. intros actions. unfold Session.run.
    induction actions as [| a actions IH]; intros st Hall Hkey Hstored.
    - cbn. repeat split; assumption.
    - inversion Hall as [| ? ? Ha Hrest]; subst.
      destruct (step_without_key fetch analyze continue a st Ha Hkey Hstored)
        as (Hkey' & Hstored' & Hclient).
      cbn [fold_left].
      destruct (IH _ Hrest Hkey' Hstored') as (Hkey'' & Hstored'' & Hclient').
      cbv zeta in *. repeat split; congruence. }
  destruct (Hrun actions (Session.handleResetKey s) Hforall eq_refl eq_refl)
    as (Hkey & Hstored & Hclient).
  fold later in Hkey, Hstored, Hclient.
  split; [exact Hkey |]. split; [exact Hstored |]. split; [exact Hclient |]. split.
  - unfold App.startConversation. rewrite Hkey. reflexivity.
  - rewrite Hstored. reflexivity.
Qed.

Lemma reset_key_holds_until_a_key_is_saved_witness :
  let fetch := fun src : string => Resolved src in
  let analyze := fun _ : string => @Rejected StartReply (mkError "Connection error.") in
  let continue := fun _ : list ChatMessage => @Rejected Reply (mkError "Connection error.") in
  let s := Session.run fetch analyze continue
             [Session.TypeApiKey "sk-test"; Session.SaveKey; Session.Start false]
             (Session.mount None true) in
  let later := Session.run fetch analyze continue
                 [Session.TypeApiKey "sk-other"; Session.Start false; Session.TryAgain;
                  Session.Recognizer OnEnd; Session.Start true]
                 (Session.handleResetKey s) in
  App.hasKey (Session.app s) = true
  /\ App.hasKey (Session.app later) = false
  /\ Session.openaiKey later = Some "sk-test".
Proof.
  intros fetch analyze continue s later.
  destruct (reset_key_holds_until_a_key_is_saved fetch analyze continue
              [Session.TypeApiKey "sk-other"; Session.Start false; Session.TryAgain;
               Session.Recognizer OnEnd; Session.Start true] s true)
    as (Hkey & _ & Hclient & _).
  - repeat constructor; discriminate.
  - split; [reflexivity |]. split; [exact Hkey | exact Hclient].
Defined.

(** ** The component: listening *)

Lemma startListening_transcript_empty (h : Hook) :
  transcript (exec startListening h) = "".
Proof. destruct h as [l sp t sup sh has tr]. run_hook. now destruct has. Qed.

(** An event that carries no result text leaves the transcript alone. *)
Lemma dispatch_keeps_transcript (ev : RecEvent) (h : Hook) :
  match ev with OnResult results => resultText results = None | _ => True end ->
  transcript (exec (dispatch ev) h) = transcript h.
Proof.
  intros Hev. destruct h as [l sp t sup sh has tr].
  destruct has; [| now run_hook].
  destruct ev as [| results | | error]; run_hook; try reflexivity.
  - unfold resultText in Hev.
    destruct (last_elem results) as [alts |]; [| reflexivity].
    now rewrite Hev.
  - now destruct sh.
  - now destruct (String.eqb error "not-allowed" || String.eqb error "service-not-allowed").
Qed.

Lemma string_length_zero (s : string) : String.length s = 0 <-> s = "".
Proof. destruct s; simpl; split; intros H; (reflexivity || discriminate). Qed.

(** The effect does nothing on a blank transcript. *)
Lemma userSpeechEndEffect_blank
    (continue : list ChatMessage -> Outcome Reply) (s : App.State) :
  trim (transcript (App.speech s)) = "" ->
  App.userSpeechEndEffect continue s = s.
Proof.
  intros Hblank. unfold App.userSpeechEndEffect. rewrite Hblank. cbn.
  now destruct (negb (isListening (App.speech s)) && App.isLISTENING (App.appState s)).
Qed.

(** X18.  Silence parks the conversation.  After the completion callback
    of [speak] has moved the controller to LISTENING, no sequence of
    recognizer events without a result text (starts, ends, errors, empty
    results, and the restarts they cause) moves it on: the state stays
    LISTENING, the transcript stays empty and nothing is added to the
    history. *)
Theorem silence_parks_in_listening :
  forall (fetch : string -> Outcome string) (analyze : string -> Outcome StartReply)
         (continue : list ChatMessage -> Outcome Reply)
         (evs : list RecEvent) (s : Session.State),
    Forall (fun ev => match ev with
                      | OnResult results => resultText results = None
                      | _ => True
                      end) evs ->
    let s' := Session.run fetch analyze continue
                (Session.SpeechEnd :: map Session.Recognizer evs) s in
    App.appState (Session.app s') = App.LISTENING
    /\ transcript (App.speech (Session.app s')) = ""
    /\ App.history (Session.app s') = App.history (Session.app s).
Proof.
  intros fetch analyze continue evs s Hsilent s'.
  set (parked := fun st : Session.State =>
         App.appState (Session.app st) = App.LISTENING
         /\ transcript (App.speech (Session.app st)) = ""
         /\ App.history (Session.app st) = App.history (Session.app s)).
  assert (Hfirst : parked (Session.step fetch analyze continue Session.SpeechEnd s)).
  { unfold parked, Session.step. cbn [Session.handle Session.onApp Session.app].
    assert (Ht : transcript (App.speech (App.handleAIBlueSpeechEnd (Session.app s))) = "").
    { cbn. apply startListening_transcript_empty. }
    rewrite userSpeechEndEffect_blank by (rewrite Ht; reflexivity).
    repeat split. exact Ht. }
  assert (Hrun : forall evs st,
            Forall (fun ev => match ev with
                              | OnResult results => resultText results = None
                              | _ => True
                              end) evs ->
            parked st ->
            parked (Session.run fetch analyze continue (map Session.Recognizer evs) st)).
  { clear. intros evs. unfold Session.run, parked.
    induction evs as [| ev evs IH]; intros st Hall Hst; [exact Hst |].
    inversion Hall as [| ? ? Hev Hrest]; subst.
    cbn [map fold_left]. apply IH; [exact Hrest |].
    destruct Hst as (Hstate & Ht & Hh).
    unfold Session.step. cbn [Session.handle Session.onApp Session.app].
    assert (Ht' : transcript (App.speech (App.onSpeech (dispatch ev) (Session.app st))) = "").
    { cbn. rewrite dispatch_keeps_transcript by exact Hev. exact Ht. }
    rewrite userSpeechEndEffect_blank by (rewrite Ht'; reflexivity).
    repeat split; [exact Hstate | exact Ht' | exact Hh]. }
  unfold s'. change (Session.run fetch analyze continue
                       (Session.SpeechEnd :: map Session.Recognizer evs) s)
    with (Session.run fetch analyze continue (map Session.Recognizer evs)
            (Session.step fetch analyze continue Session.SpeechEnd s)).
  exact (Hrun evs _ Hsilent Hfirst).
Qed.

Lemma silence_parks_in_listening_witness :
  let fetch := fun src : string => Resolved src in
  let analyze := fun _ : string => @Rejected StartReply (mkError "Connection error.") in
  let continue := fun _ : list ChatMessage => @Rejected Reply (mkError "Connection error.") in
  let s := Session.run fetch analyze continue [Session.Start true]
             (Session.mount None true) in
  let evs := [OnStart; OnError "no-speech"; OnEnd; OnStart; OnResult []; OnEnd] in
  App.appState
    (Session.app (Session.run fetch analyze continue
                    (Session.SpeechEnd :: map Session.Recognizer evs) s))
  = App.LISTENING.
Proof.
  intros fetch analyze continue s evs.
  apply (silence_parks_in_listening fetch analyze continue evs s).
  repeat constructor.
Defined.

(** X19.  When the recognizer has stopped in the LISTENING state and the
    transcript is not blank, the effect hands the transcript to
    [handleUserResponse] as it is: the user turn appended to the history
    holds the transcript with the white space around it.  The controller
    does not stop the recognizer on the way: the intent flag and the calls
    made on the recognizer are as before. *)
Theorem spoken_answer_is_handed_over_as_heard :
  forall (continue : list ChatMessage -> Outcome Reply) (s : App.State),
    isListening (App.speech s) = false ->
    App.appState s = App.LISTENING ->
    trim (transcript (App.speech s)) <> "" ->
    let heard := transcript (App.speech s) in
    let s' := App.userSpeechEndEffect continue s in
    s' = App.handleUserResponse continue heard s
    /\ (exists tail,
          App.history s' = (App.history s ++ mkMsg user (Text heard) :: tail)%list)
    /\ (App.appState s' = App.SPEAKING \/ App.appState s' = App.ERROR)
    /\ shouldListen (App.speech s') = shouldListen (App.speech s)
    /\ recognizerCommands (trace (App.speech s'))
       = recognizerCommands (trace (App.speech s)).
Proof.
  intros continue s Hstopped Hstate Hheard heard s'.
  assert (Heq : s' = App.handleUserResponse continue heard s).
  { unfold s', App.userSpeechEndEffect. rewrite Hstopped, Hstate. cbn [negb andb App.isLISTENING].
    destruct (Nat.ltb_spec 0 (String.length (trim (transcript (App.speech s)))))
      as [_ | Hzero]; [reflexivity |].
    exfalso. apply Hheard, string_length_zero. lia. }
  split; [exact Heq |]. rewrite Heq.
  destruct (handleUserResponse_frame continue heard s) as (_ & _ & Hst & Hsh & _ & _ & Hc).
  split; [| split; [exact Hst | split; [exact Hsh | exact Hc]]].
  unfold App.handleUserResponse.
  destruct (if App.isDemoMode s
            then mockContinueConversation (App.history s ++ [mkMsg user (Text heard)])%list
            else continue (App.history s ++ [mkMsg user (Text heard)])%list) as [r | e].
  - exists [mkMsg assistant (Text (text r))].
    destruct (toolCall r); cbn; now rewrite <- app_assoc.
  - exists []. reflexivity.
Qed.

Lemma spoken_answer_is_handed_over_as_heard_witness :
  let continue := fun _ : list ChatMessage => @Rejected Reply (mkError "Connection error.") in
  let s := App.onSpeech (dispatchAll [OnStart; OnResult [[" I like blue "]]; OnEnd])
             (App.handleAIBlueSpeechEnd
                (App.startConversation (fun src => Resolved src)
                   (fun _ => Rejected (mkError "Connection error.")) true
                   (App.initial true))) in
  exists tail,
    App.history (App.userSpeechEndEffect continue s)
    = (App.history s ++ mkMsg user (Text " I like blue ") :: tail)%list.
Proof.
  intros continue s.
  apply (spoken_answer_is_handed_over_as_heard continue s);
    [reflexivity | reflexivity | discriminate].
Defined.

(** X20.  When a request of the Thinking state resolves, one and the same
    text is shown ([lastAIResponse]), recorded (the assistant turn that
    ends the history, after the user turn) and, unless it is empty, handed
    to the synthesis with the safety timer armed for it; the background
    takes the color of the tool call when there is one and keeps its color
    otherwise.  On an empty text the controller is in SPEAKING with no
    utterance and no timer. *)
Theorem reply_is_shown_recorded_and_spoken :
  forall (continue : list ChatMessage -> Outcome Reply) (userText : string)
         (s : App.State) (r : Reply),
    (if App.isDemoMode s
     then mockContinueConversation (App.history s ++ [mkMsg user (Text userText)])%list
     else continue (App.history s ++ [mkMsg user (Text userText)])%list) = Resolved r ->
    let s' := App.handleUserResponse continue userText s in
    App.appState s' = App.SPEAKING
    /\ App.lastAIResponse s' = text r
    /\ App.history s'
       = (App.history s ++ [mkMsg user (Text userText); mkMsg assistant (Text (text r))])%list
    /\ App.backgroundColor s'
       = match toolCall r with Some c => color c | None => App.backgroundColor s end
    /\ (text r <> "" ->
        App.utterance s'
        = Some (Speech.mkCall (Armed (safetyDelay (text r))) (Some App.onSpeechEnd))
        /\ trace (App.speech s')
           = (trace (App.speech s)
              ++ [SynthCancel; SetTimeout (safetyDelay (text r)); SynthSpeak (text r)])%list)
    /\ (text r = "" ->
        App.utterance s' = None /\ App.speech s' = App.speech s).
Proof.
  intros continue userText s r Hreq s'.
  unfold s', App.handleUserResponse. rewrite Hreq.
  split; [now destruct (toolCall r) |].
  split; [now destruct (toolCall r) |].
  split; [destruct (toolCall r); cbn; now rewrite <- app_assoc |].
  split; [now destruct (toolCall r) |].
  split.
  - intros Hne. unfold App.speak.
    destruct (toolCall r); cbn [App.speech App.applyToolCall App.setAppState
                                App.setBackgroundColor App.setHistory
                                App.setLastAIResponse];
      rewrite speak_nonempty by exact Hne; cbn; split; reflexivity.
  - intros Hempty. unfold App.speak, Speech.speak. rewrite Hempty.
    destruct (toolCall r); cbn; split; reflexivity.
Qed.

Lemma reply_is_shown_recorded_and_spoken_witness :
  let continue := fun _ : list ChatMessage =>
    Resolved (mkReply "Blue like the sky!" (Some (mkTool "skyblue"))) in
  let s := App.setHasKey true (App.initial true) in
  let s' := App.handleUserResponse continue "I like blue" s in
  App.lastAIResponse s' = "Blue like the sky!"
  /\ App.backgroundColor s' = "skyblue"
  /\ App.utterance s'
     = Some (Speech.mkCall (Armed (safetyDelay "Blue like the sky!")) (Some App.onSpeechEnd)).
Proof.
  intros continue s s'.
  destruct (reply_is_shown_recorded_and_spoken continue "I like blue" s
              (mkReply "Blue like the sky!" (Some (mkTool "skyblue"))) eq_refl)
    as (_ & Hshown & _ & Hcolor & Hspoken & _).
  split; [exact Hshown |]. split; [exact Hcolor |].
  apply Hspoken. discriminate.
Defined.

(** X21.  Once the intent flag of the recognizer is set, only a click on
    the microphone or a permission error clears it: every other handler of
    the component and every other recognizer event leaves it set, the
    Thinking and Speaking steps included. *)
Theorem only_mic_click_or_permission_error_clears_intent :
  forall (fetch : string -> Outcome string) (analyze : string -> Outcome StartReply)
         (continue : list ChatMessage -> Outcome Reply)
         (a : Session.Action) (s : Session.State),
    shouldListen (App.speech (Session.app s)) = true ->
    a <> Session.MicClick ->
    (forall error, a = Session.Recognizer (OnError error) -> isPermissionError error = false) ->
    shouldListen (App.speech (Session.app (Session.step fetch analyze continue a s))) = true.
Proof.
  intros fetch analyze continue a s Hon Hmic Hperm.
  assert (Hhandle :
    shouldListen (App.speech (Session.app (Session.handle fetch analyze continue a s))) = true).
  { destruct a; cbn [Session.handle Session.onApp Session.app Session.setApiKey
                     Session.handleResetKey];
      try exact Hon.
    - unfold Session.handleSaveKey.
      destruct (startsWith "sk-" (trim (Session.apiKey s))); exact Hon.
    - destruct (startConversation_frame fetch analyze forceDemo (Session.app s))
        as (_ & _ & _ & H & _).
      congruence.
    - destruct (startConversation_frame fetch analyze true
                  (App.setAppState App.IDLE (Session.app s))) as (_ & _ & _ & H & _).
      rewrite H. exact Hon.
    - cbn. destruct (App.speech (Session.app s)) as [l sp t sup sh has tr].
      run_hook. now destruct has.
    - destruct (handleUserResponse_frame continue userText (Session.app s))
        as (_ & _ & _ & H & _).
      congruence.
    - congruence.
    - cbn. destruct (App.speech (Session.app s)) as [l sp t sup sh has tr].
      simpl in Hon; subst sh.
      destruct has; [| now run_hook].
      destruct ev as [| results | | error]; run_hook; try reflexivity.
      + destruct (last_elem results) as [alts |]; [| reflexivity].
        now destruct (nth_error alts 0).
      + specialize (Hperm error eq_refl). unfold isPermissionError in Hperm.
        now rewrite Hperm. }
  unfold Session.step. cbn [Session.onApp Session.app].
  destruct (userSpeechEndEffect_cases continue
              (Session.app (Session.handle fetch analyze continue a s))) as [-> | ->];
    [exact Hhandle |].
  destruct (handleUserResponse_frame continue
              (transcript (App.speech (Session.app (Session.handle fetch analyze continue a s))))
              (Session.app (Session.handle fetch analyze continue a s)))
    as (_ & _ & _ & H & _).
  congruence.
Qed.

Lemma only_mic_click_or_permission_error_clears_intent_witness :
  let fetch := fun src : string => Resolved src in
  let analyze := fun _ : string => @Rejected StartReply (mkError "Connection error.") in
  let continue := fun _ : list ChatMessage => @Rejected Reply (mkError "Connection error.") in
  let s := Session.run fetch analyze continue [Session.Start true; Session.SpeechEnd]
             (Session.mount None true) in
  shouldListen
    (App.speech (Session.app (Session.step fetch analyze continue
                                (Session.TypedResponse "I like blue") s))) = true.
Proof.
  intros fetch analyze continue s.
  apply (only_mic_click_or_permission_error_clears_intent fetch analyze continue
           (Session.TypedResponse "I like blue") s);
    [reflexivity | discriminate | discriminate].
Defined.
